(** * A read-through cache for one user profile: model and properties

    Shallow embedding of [backend/config.py], [backend/models.py],
    [backend/database.py], [backend/services.py] and the endpoints and the
    start-up migration loop of [backend/app.py].

    - Timestamps ([datetime], timezone aware) are integers counting
      microseconds, the resolution of [datetime] and of the
      [DateTime(timezone=True)] column; a [timedelta] is a number of
      microseconds.
    - Python [str] is [string]; [startswith] is [String.prefix].  The
      database driver refuses text that holds a NUL character before any
      statement is sent; the writes modelled here are those of text it
      accepts, and a theorem that promises a write carries
      [text_storable] as a hypothesis.
    - The [users] table is the list of its rows.  The constraints declared
      in [database.py] and in the migration (primary key [id], 32-bit
      [Integer]; unique [username]) are checked by the two write
      operations, which is where the database checks them.
    - A method of [UserService] is a computation over a [World]: the rows of
      the table, the wall clock, the upstream server and the log of the
      HTTP requests sent.  It returns a value or raises.
    - Within a call the clock moves during the HTTP exchange, by the time
      the exchange takes; between calls it is whatever the world says. *)

From Stdlib Require Import ZArith List String Ascii Bool Lia.
Import ListNotations.

Local Open Scope string_scope.
Local Open Scope Z_scope.

(** ** config.py *)

Record Config := {
  UPSTREAM_API_URL : string;
  CACHE_DURATION_MINUTES : Z
}.

(** The values taken when the environment sets neither variable. *)
Definition default_config : Config :=
  {| UPSTREAM_API_URL := "https://jsonplaceholder.typicode.com/users/1";
     CACHE_DURATION_MINUTES := 10 |}.

(** ** models.py *)

(** A JSON object read into a Python [dict], restricted to the members whose
    value is a string or [null] ([None]). *)
Definition dict := list (string * option string).

Definition dict_get (d : dict) (key : string) (default : option string)
  : option string :=
  match find (fun kv => (fst kv =? key)%string) d with
  | Some kv => snd kv
  | None => default
  end.

(** Truth value of a [dict]: false exactly when it is empty. *)
Definition dict_truthy (d : dict) : bool :=
  match d with [] => false | _ :: _ => true end.

Module UpstreamUserData.
Record t := {
  id : Z;
  name : string;
  username : string;
  email : string;
  website : string;
  company : dict
}.
End UpstreamUserData.

Module UserResponse.
Record t := {
  name : string;
  username : string;
  email : string;
  website : string;
  companyName : string
}.
End UserResponse.

(** ** database.py: a row of the [users] table *)

Module User.
Record t := {
  id : Z;
  name : string;
  username : string;
  email : string;
  website : string;
  company_name : option string;   (* the one nullable column *)
  updated_at : Z
}.
End User.

(** ** The world a request runs in *)

(** What one [GET] of a URL leads to, by the line of [fetch_from_upstream]
    that raises, if any. *)
Inductive Exchange :=
| GetRaises                                 (* client.get(...) *)
| StatusRaises                              (* response.raise_for_status() *)
| JsonRaises                                (* response.json() *)
| ModelRaises                               (* the UpstreamUserData constructor *)
| Payload (data : UpstreamUserData.t).

Record Reply := {
  elapsed : Z;          (* microseconds the exchange takes *)
  exchange : Exchange
}.

Record World := {
  config : Config;
  users : list User.t;
  clock : Z;
  upstream : string -> Reply;
  http_log : list string          (* URLs requested, latest first *)
}.

Inductive exn :=
| TransportError
| HTTPStatusError
| JSONDecodeError
| ValidationError
| DataError
| IntegrityError (constraint : string)
| StaleDataError
| InvalidRequestError
| AttributeError.

Inductive result (A : Type) :=
| Ok (a : A)
| Raise (e : exn).
Arguments Ok {A} a.
Arguments Raise {A} e.

Definition M (A : Type) : Type := World -> result A * World.

Definition ret {A} (a : A) : M A := fun w => (Ok a, w).

Definition raise {A} (e : exn) : M A := fun w => (Raise e, w).

Definition bind {A B} (m : M A) (k : A -> M B) : M B :=
  fun w =>
    match m w with
    | (Ok a, w') => k a w'
    | (Raise e, w') => (Raise e, w')
    end.

Declare Scope py_scope.
Delimit Scope py_scope with py.
Notation "x <- m ;; k" := (bind m (fun x => k))
  (at level 61, m at next level, right associativity) : py_scope.
Notation "m ;; k" := (bind m (fun _ => k))
  (at level 61, right associativity) : py_scope.
Local Open Scope py_scope.

Definition value {A} (r : result A * World) : result A := fst r.
Definition after {A} (r : result A * World) : World := snd r.

Definition set_users (rows : list User.t) (w : World) : World :=
  {| config := config w; users := rows; clock := clock w;
     upstream := upstream w; http_log := http_log w |}.

(** [datetime.now(timezone.utc)] *)
Definition now : M Z := fun w => (Ok (clock w), w).

(** A module-level constant of [config.py]. *)
Definition setting {A} (f : Config -> A) : M A := fun w => (Ok (f (config w)), w).

(** ** The session: queries and writes on [users] *)

Definition has_id (k : Z) (r : User.t) : bool := User.id r =? k.
Definition has_username (s : string) (r : User.t) : bool :=
  (User.username r =? s)%string.

(** [self.db.query(User).filter(<p>).first()] *)
Definition query_first (p : User.t -> bool) : M (option User.t) :=
  fun w => (Ok (find p (users w)), w).

(** Range of the [Integer] column. *)
Definition in_int4 (z : Z) : bool := (-2147483648 <=? z) && (z <=? 2147483647).

(** [self.db.add(r); self.db.commit()]: an INSERT of a row whose text the
    driver accepts.  A refused row leaves the table as it was (the
    transaction is rolled back). *)
Definition add_commit (r : User.t) : M unit :=
  fun w =>
    if negb (in_int4 (User.id r)) then (Raise DataError, w)
    else if existsb (has_id (User.id r)) (users w)
    then (Raise (IntegrityError "users_pkey"), w)
    else if existsb (has_username (User.username r)) (users w)
    then (Raise (IntegrityError "users_username_key"), w)
    else (Ok tt, set_users (users w ++ [r]) w).

(** Attribute assignments on a loaded row followed by [self.db.commit()]: an
    UPDATE of the row whose primary key is [User.id r], to the values of
    [r], whose text the driver accepts. *)
Definition assign_commit (r : User.t) : M unit :=
  fun w =>
    if negb (existsb (has_id (User.id r)) (users w))
    then (Raise StaleDataError, w)
    else if existsb (fun x => negb (has_id (User.id r) x)
                              && has_username (User.username r) x) (users w)
    then (Raise (IntegrityError "users_username_key"), w)
    else (Ok tt,
          set_users (map (fun x => if has_id (User.id r) x then r else x)
                         (users w)) w).

(** [self.db.refresh(r)]: the row is read again by primary key. *)
Definition refresh (r : User.t) : M User.t :=
  fun w =>
    match find (has_id (User.id r)) (users w) with
    | Some x => (Ok x, w)
    | None => (Raise InvalidRequestError, w)
    end.

(** ** services.py: UserService *)

Definition timedelta_minutes (m : Z) : Z := m * 60 * 1000000.

(** [is_cache_stale(self, updated_at)]; [None] is the only falsy value of
    its argument. *)
Definition is_cache_stale (updated_at : option Z) : M bool :=
  match updated_at with
  | None => ret true
  | Some updated_at =>
      now' <- now ;;
      minutes <- setting CACHE_DURATION_MINUTES ;;
      let cache_duration := timedelta_minutes minutes in
      ret (cache_duration <? now' - updated_at)
  end.

(** [fetch_from_upstream(self)] *)
Definition fetch_from_upstream : M UpstreamUserData.t :=
  fun w =>
    let url := UPSTREAM_API_URL (config w) in
    let reply := upstream w url in
    let w' := {| config := config w; users := users w;
                 clock := clock w + elapsed reply;
                 upstream := upstream w;
                 http_log := url :: http_log w |} in
    match exchange reply with
    | GetRaises => (Raise TransportError, w')
    | StatusRaises => (Raise HTTPStatusError, w')
    | JsonRaises => (Raise JSONDecodeError, w')
    | ModelRaises => (Raise ValidationError, w')
    | Payload data => (Ok data, w')
    end.

(** [normalize_website(self, website)] *)
Definition normalize_website (website : string) : string :=
  if (website =? "")%string then ""
  else if prefix "http://" website || prefix "https://" website then website
  else ("https://" ++ website)%string.

(** Lines 43-45 of [upsert_user]: the company name taken from the nested
    object. *)
Definition company_name_of (user_data : UpstreamUserData.t) : option string :=
  if dict_truthy (UpstreamUserData.company user_data)
  then dict_get (UpstreamUserData.company user_data) "name" (Some "")
  else Some "".

(** The two branches of [upsert_user], after the lookup. *)
Definition upsert_write (user_data : UpstreamUserData.t)
    (current_time : Z) (existing_user : option User.t) : M User.t :=
  let normalized_website :=
    normalize_website (UpstreamUserData.website user_data) in
  let company_name := company_name_of user_data in
  match existing_user with
  | Some existing_user =>
      let existing_user :=
        {| User.id := User.id existing_user;
           User.name := UpstreamUserData.name user_data;
           User.username := UpstreamUserData.username user_data;
           User.email := UpstreamUserData.email user_data;
           User.website := normalized_website;
           User.company_name := company_name;
           User.updated_at := current_time |} in
      assign_commit existing_user ;;
      refresh existing_user
  | None =>
      let new_user :=
        {| User.id := UpstreamUserData.id user_data;
           User.name := UpstreamUserData.name user_data;
           User.username := UpstreamUserData.username user_data;
           User.email := UpstreamUserData.email user_data;
           User.website := normalized_website;
           User.company_name := company_name;
           User.updated_at := current_time |} in
      add_commit new_user ;;
      refresh new_user
  end.

(** [upsert_user(self, user_data)] *)
Definition upsert_user (user_data : UpstreamUserData.t) : M User.t :=
  current_time <- now ;;
  existing_user <- query_first (has_id (UpstreamUserData.id user_data)) ;;
  upsert_write user_data current_time existing_user.

(** [x or ''] on a nullable string. *)
Definition or_empty (x : option string) : string :=
  match x with
  | Some s => s
  | None => ""
  end.

(** The [UserResponse(...)] built at the end of [get_user] and of
    [refresh_user]. *)
Definition response_of (user : User.t) : UserResponse.t :=
  {| UserResponse.name := User.name user;
     UserResponse.username := User.username user;
     UserResponse.email := User.email user;
     UserResponse.website := User.website user;
     UserResponse.companyName := or_empty (User.company_name user) |}.

(** The test of [get_user]:
    [not user or self.is_cache_stale(user.updated_at) or bypass_cache];
    [or] evaluates its right operand only when the left one is false. *)
Definition must_refetch (user : option User.t) (bypass_cache : bool) : M bool :=
  match user with
  | None => ret true
  | Some user =>
      stale <- is_cache_stale (Some (User.updated_at user)) ;;
      if stale then ret true else ret bypass_cache
  end.

(** [get_user(self, user_id, bypass_cache)] *)
Definition get_user (user_id : Z) (bypass_cache : bool) : M UserResponse.t :=
  user <- query_first (has_id user_id) ;;
  refetch <- must_refetch user bypass_cache ;;
  user <- (if refetch
           then upstream_data <- fetch_from_upstream ;;
                user <- upsert_user upstream_data ;;
                ret (Some user)
           else ret user) ;;
  match user with
  | Some user => ret (response_of user)
  | None => raise AttributeError      (* user.name on None *)
  end.

(** [refresh_user(self, user_id)] *)
Definition refresh_user (user_id : Z) : M UserResponse.t :=
  upstream_data <- fetch_from_upstream ;;
  user <- upsert_user upstream_data ;;
  ret (response_of user).

(** ** Another session writing between two statements of this one *)

(** A transaction of another session, run to its end; whether it commits or
    fails is that session's business. *)
Definition concurrently {A} (other : M A) : M unit :=
  fun w => (Ok tt, after (other w)).

(** [upsert_user] with another session scheduled between its SELECT and its
    write. *)
Definition upsert_user_raced {A} (other : M A)
    (user_data : UpstreamUserData.t) : M User.t :=
  current_time <- now ;;
  existing_user <- query_first (has_id (UpstreamUserData.id user_data)) ;;
  concurrently other ;;
  upsert_write user_data current_time existing_user.

(** ** Sample data *)

Definition leanne : UpstreamUserData.t :=
  {| UpstreamUserData.id := 1;
     UpstreamUserData.name := "Leanne Graham";
     UpstreamUserData.username := "Bret";
     UpstreamUserData.email := "Sincere@april.biz";
     UpstreamUserData.website := "hildegard.org";
     UpstreamUserData.company :=
       [("name", Some "Romaguera-Crona"); ("bs", Some "harness real-time e-markets")] |}.

Definition serving (data : UpstreamUserData.t) : string -> Reply :=
  fun _ => {| elapsed := 250000; exchange := Payload data |}.

Definition empty_world : World :=
  {| config := default_config; users := []; clock := 1000000000;
     upstream := serving leanne; http_log := [] |}.

Definition at_clock (t : Z) (w : World) : World :=
  {| config := config w; users := users w; clock := t;
     upstream := upstream w; http_log := http_log w |}.

(** ** Vocabulary of the statements *)

Definition has_scheme (website : string) : bool :=
  prefix "http://" website || prefix "https://" website.

(** The configured cache duration, as a [timedelta]. *)
Definition cache_duration (w : World) : Z :=
  timedelta_minutes (CACHE_DURATION_MINUTES (config w)).

(** The row a payload is written as at time [t]. *)
Definition row_of (user_data : UpstreamUserData.t) (t : Z) : User.t :=
  {| User.id := UpstreamUserData.id user_data;
     User.name := UpstreamUserData.name user_data;
     User.username := UpstreamUserData.username user_data;
     User.email := UpstreamUserData.email user_data;
     User.website := normalize_website (UpstreamUserData.website user_data);
     User.company_name := company_name_of user_data;
     User.updated_at := t |}.

(** The table after the row with primary key [k] has been given the values
    of [r]; every other row is as it was. *)
Definition replaced (k : Z) (r : User.t) (rows : list User.t) : list User.t :=
  map (fun x => if has_id k x then r else x) rows.

(** Some row other than the one with primary key [k] holds the username. *)
Definition username_taken_by_other (k : Z) (s : string) (rows : list User.t)
  : bool :=
  existsb (fun x => negb (has_id k x) && has_username s x) rows.

Ltac branches :=
  repeat match goal with
         | |- context [match find ?p ?l with _ => _ end] => destruct (find p l)
         | |- context [if ?c then _ else _] => destruct c
         end.

(** One fetch-then-upsert cycle and the response built from its row. *)
Definition fetch_then_upsert : M UserResponse.t :=
  upstream_data <- fetch_from_upstream ;;
  user <- upsert_user upstream_data ;;
  ret (response_of user).

(** The stored record is usable: there is a row of this id, the staleness
    check on its timestamp answers false, and no bypass is asked for. *)
Definition served_from_store (user_id : Z) (bypass_cache : bool) (w : World)
  : Prop :=
  exists user,
    find (has_id user_id) (users w) = Some user
    /\ value (is_cache_stale (Some (User.updated_at user)) w) = Ok false
    /\ bypass_cache = false.

(** The exchange with the configured URL does not end in a payload. *)
Definition fetch_fails (w : World) : Prop :=
  forall data,
    exchange (upstream w (UPSTREAM_API_URL (config w))) <> Payload data.

(** ** More sample data *)

(** A row of another user that already holds the username [Bret]. *)
Definition namesake : User.t :=
  {| User.id := 2; User.name := "Bret Hart"; User.username := "Bret";
     User.email := "bret@example.org"; User.website := "";
     User.company_name := None; User.updated_at := 0 |}.



(** A table that holds the upstream user's row, written at the current
    instant. *)
Definition cached_world : World :=
  set_users [row_of leanne (clock empty_world)] empty_world.

(** The upstream is unreachable. *)
Definition offline (w : World) : World :=
  {| config := config w; users := users w; clock := clock w;
     upstream := fun _ => {| elapsed := 30000000; exchange := GetRaises |};
     http_log := http_log w |}.

(** ** services.py: the other methods of UserService *)

(** [self.db.query(User).all()] *)
Definition query_all : M (list User.t) := fun w => (Ok (users w), w).

(** [self.db.query(User).filter(<p>).all()] *)
Definition query_filter_all (p : User.t -> bool) : M (list User.t) :=
  fun w => (Ok (filter p (users w)), w).

(** [self.db.query(User).count()] *)
Definition query_count : M Z :=
  fun w => (Ok (Z.of_nat (List.length (users w))), w).

(** What [self.db.merge(user)] hands back: the row of that primary key when
    the table has one, now carrying the values of [user], or else a new
    object added to the session. *)
Inductive Merged :=
| Persistent (r : User.t)
| Pending (r : User.t).

Definition merged_row (m : Merged) : User.t :=
  match m with
  | Persistent r => r
  | Pending r => r
  end.

(** [self.db.merge(user)]: the row is looked up by primary key. *)
Definition merge (user : User.t) : M Merged :=
  found <- query_first (has_id (User.id user)) ;;
  match found with
  | Some _ => ret (Persistent user)
  | None => ret (Pending user)
  end.

(** [self.db.commit()] after a merge: an UPDATE of the row found, or an
    INSERT of the new one. *)
Definition commit_merged (m : Merged) : M unit :=
  match m with
  | Persistent r => assign_commit r
  | Pending r => add_commit r
  end.

(** [upsert_user_merge(self, user_data)] *)
Definition upsert_user_merge (user_data : UpstreamUserData.t) : M User.t :=
  let normalized_website :=
    normalize_website (UpstreamUserData.website user_data) in
  let company_name := company_name_of user_data in
  current_time <- now ;;
  let user :=
    {| User.id := UpstreamUserData.id user_data;
       User.name := UpstreamUserData.name user_data;
       User.username := UpstreamUserData.username user_data;
       User.email := UpstreamUserData.email user_data;
       User.website := normalized_website;
       User.company_name := company_name;
       User.updated_at := current_time |} in
  merged_user <- merge user ;;
  commit_merged merged_user ;;
  refresh (merged_row merged_user).

(** [get_user_by_id(self, user_id)] *)
Definition get_user_by_id (user_id : Z) : M (option User.t) :=
  query_first (has_id user_id).

(** [get_user_by_username(self, username)] *)
Definition get_user_by_username (username : string) : M (option User.t) :=
  query_first (has_username username).

(** [get_all_users(self)] *)
Definition get_all_users : M (list User.t) := query_all.

(** [self.db.delete(user); self.db.commit()]: a DELETE by primary key. *)
Definition delete_commit (user : User.t) : M unit :=
  fun w =>
    (Ok tt,
     set_users (filter (fun x => negb (has_id (User.id user) x)) (users w)) w).

(** [delete_user(self, user_id)] *)
Definition delete_user (user_id : Z) : M bool :=
  user <- get_user_by_id user_id ;;
  match user with
  | Some user => delete_commit user ;; ret true
  | None => ret false
  end.

(** [get_stale_users(self)] *)
Definition get_stale_users : M (list User.t) :=
  now' <- now ;;
  minutes <- setting CACHE_DURATION_MINUTES ;;
  let cutoff_time := now' - timedelta_minutes minutes in
  query_filter_all (fun user => User.updated_at user <? cutoff_time).

(** [count_users(self)] *)
Definition count_users : M Z := query_count.

(** ** app.py: the endpoints *)

Module App.

(** What an endpoint can raise: an exception of the service, or an
    [HTTPException] with its status code and detail. *)
Inductive raised :=
| Exception (e : exn)
| HTTPException (status_code : Z) (detail : Detail)
with Detail :=
| UserNotFound                          (* "User not found" *)
| InternalServerError (cause : raised). (* "Internal server error: ..." *)

Inductive outcome (A : Type) :=
| Return (a : A)
| Raised (x : raised).
Arguments Return {A} a.
Arguments Raised {A} x.

Definition E (A : Type) : Type := World -> outcome A * World.

(** A call of a method of the service from an endpoint. *)
Definition call {A} (m : M A) : E A :=
  fun w =>
    match m w with
    | (Ok a, w') => (Return a, w')
    | (Raise e, w') => (Raised (Exception e), w')
    end.

Definition ret {A} (a : A) : E A := fun w => (Return a, w).

Definition raise {A} (x : raised) : E A := fun w => (Raised x, w).

Definition bind {A B} (m : E A) (k : A -> E B) : E B :=
  fun w =>
    match m w with
    | (Return a, w') => k a w'
    | (Raised x, w') => (Raised x, w')
    end.

(** [try: <body> except ...: <handler>] *)
Definition try_except {A} (body : E A) (handler : raised -> E A) : E A :=
  fun w =>
    match body w with
    | (Return a, w') => (Return a, w')
    | (Raised x, w') => handler x w'
    end.

(** [except Exception as e: raise HTTPException(status_code=500, ...)];
    [HTTPException] is itself an [Exception]. *)
Definition except_Exception {A} (x : raised) : E A :=
  raise (HTTPException 500 (InternalServerError x)).

(** [except HTTPException: raise] followed by the clause above. *)
Definition except_HTTPException_raise {A} (x : raised) : E A :=
  match x with
  | HTTPException _ _ => raise x
  | Exception _ => except_Exception x
  end.

(** [GET /api/users/1] *)
Definition get_user (bypass_cache : bool) : E UserResponse.t :=
  try_except (call (get_user 1 bypass_cache)) except_Exception.

(** [POST /api/users/refresh] *)
Definition refresh_user : E UserResponse.t :=
  try_except (call (refresh_user 1)) except_Exception.

(** [GET /api/users] *)
Definition get_all_users : E (list UserResponse.t) :=
  try_except
    (bind (call get_all_users) (fun users => ret (map response_of users)))
    except_Exception.

(** [GET /api/users/count]; the body is the value of ["count"]. *)
Definition get_user_count : E Z :=
  try_except (call count_users) except_Exception.

(** The handler [get_user_by_id], registered for
    [GET /api/users/{user_id}] after [GET /api/users/1]: a request for
    [/api/users/1] goes to [get_user] above and does not come here. *)
Definition get_user_by_id (user_id : Z) : E UserResponse.t :=
  try_except
    (bind (call (get_user_by_id user_id)) (fun user =>
       match user with
       | None => raise (HTTPException 404 UserNotFound)
       | Some user => ret (response_of user)
       end))
    except_HTTPException_raise.

(** The handler [delete_user], the one route of method DELETE, so also the
    one that serves [DELETE /api/users/1]; the body is the id named in the
    message. *)
Definition delete_user (user_id : Z) : E Z :=
  try_except
    (bind (call (delete_user user_id)) (fun success =>
       if negb success then raise (HTTPException 404 UserNotFound)
       else ret user_id))
    except_HTTPException_raise.

(** *** run_migrations *)

(** How one run of [alembic upgrade head] ends. *)
Inductive Run :=
| Completed
| CalledProcessError
| OtherException.

Record Log := {
  runs : nat;       (* subprocess.run calls made *)
  slept : Z         (* seconds spent in time.sleep *)
}.

Inductive Ended :=
| Returned (b : bool)
| Reraised (failure : Run).

Definition max_retries : nat := 5.
Definition retry_delay : Z := 2.

(** The body of [for attempt in range(max_retries)], then [return False];
    [subprocess_run attempt] is how the run of that attempt ends. *)
Fixpoint attempts (range : list nat) (subprocess_run : nat -> Run) (log : Log)
  : Ended * Log :=
  match range with
  | [] => (Returned false, log)
  | attempt :: rest =>
      let log := {| runs := S (runs log); slept := slept log |} in
      match subprocess_run attempt with
      | Completed => (Returned true, log)
      | failure =>
          if (attempt <? max_retries - 1)%nat
          then attempts rest subprocess_run
                 {| runs := runs log; slept := slept log + retry_delay |}
          else (Reraised failure, log)
      end
  end.

Definition run_migrations (subprocess_run : nat -> Run) : Ended * Log :=
  attempts (seq 0 max_retries) subprocess_run {| runs := 0; slept := 0 |}.

End App.

(** ** Calls over time *)

Inductive Call :=
| CallGetUser (user_id : Z) (bypass_cache : bool)
| CallRefreshUser (user_id : Z)
| CallUpsertUser (user_data : UpstreamUserData.t)
| CallUpsertUserMerge (user_data : UpstreamUserData.t)
| CallDeleteUser (user_id : Z).

(** The world after a call, whatever it returned or raised. *)
Definition serve (c : Call) (w : World) : World :=
  match c with
  | CallGetUser user_id bypass_cache => after (get_user user_id bypass_cache w)
  | CallRefreshUser user_id => after (refresh_user user_id w)
  | CallUpsertUser user_data => after (upsert_user user_data w)
  | CallUpsertUserMerge user_data => after (upsert_user_merge user_data w)
  | CallDeleteUser user_id => after (delete_user user_id w)
  end.

(** One step of history: a call is served, or the surroundings (clock,
    upstream, configuration) change while the table stays. *)
Inductive step : World -> World -> Prop :=
| step_call (c : Call) (w : World) : step w (serve c w)
| step_world (w w' : World) : users w' = users w -> step w w'.

Inductive reachable (w0 : World) : World -> Prop :=
| reachable_start : reachable w0 w0
| reachable_step (w w' : World) :
    reachable w0 w -> step w w' -> reachable w0 w'.

(** At most one row per id and per username. *)
Definition well_keyed (rows : list User.t) : Prop :=
  NoDup (map User.id rows) /\ NoDup (map User.username rows).

(** What the service writes in a row: an id of the column's range and a
    website that is empty or carries a scheme. *)
Definition well_formed_row (r : User.t) : Prop :=
  in_int4 (User.id r) = true
  /\ (User.website r = "" \/ has_scheme (User.website r) = true).

(** The view of a payload: what a response shows of it. *)
Definition view_of (user_data : UpstreamUserData.t) : UserResponse.t :=
  {| UserResponse.name := UpstreamUserData.name user_data;
     UserResponse.username := UpstreamUserData.username user_data;
     UserResponse.email := UpstreamUserData.email user_data;
     UserResponse.website :=
       normalize_website (UpstreamUserData.website user_data);
     UserResponse.companyName :=
       match find (fun kv => (fst kv =? "name")%string)
                  (UpstreamUserData.company user_data) with
       | Some (_, Some s) => s       (* a name that is a string *)
       | Some (_, None) => ""        (* a name that is null *)
       | None => ""                  (* no name, or no member at all *)
       end |}.

(** The database comes up before the third run. *)
Definition up_at_third (attempt : nat) : App.Run :=
  if (attempt <? 2)%nat then App.CalledProcessError else App.Completed.

(** A run known to have failed: the case of a completed run goes. *)
Ltac failed_run f H m :=
  let E := fresh "E" in
  destruct (f m) eqn:E;
  [exfalso; apply (H m); [lia | exact E] | |].

(** ** Text the driver accepts *)



(** ** Histories in which an id is never offered *)

(** The configured URL answers with a payload of id [k]. *)
Definition serves_id (k : Z) (w : World) : Prop :=
  exists d,
    exchange (upstream w (UPSTREAM_API_URL (config w))) = Payload d
    /\ UpstreamUserData.id d = k.

(** One step in which nothing offers id [k]: a [get_user] or a
    [refresh_user] (for any id) while the upstream does not answer with id
    [k], an [upsert_user] or [upsert_user_merge] of another id, a
    [delete_user], or a change of the surroundings that leaves the table. *)
Inductive quiet_step (k : Z) : World -> World -> Prop :=
| quiet_get_user (user_id : Z) (bypass_cache : bool) (w : World) :
    ~ serves_id k w ->
    quiet_step k w (after (get_user user_id bypass_cache w))
| quiet_refresh_user (user_id : Z) (w : World) :
    ~ serves_id k w ->
    quiet_step k w (after (refresh_user user_id w))
| quiet_upsert_user (d : UpstreamUserData.t) (w : World) :
    UpstreamUserData.id d <> k ->
    quiet_step k w (after (upsert_user d w))
| quiet_upsert_user_merge (d : UpstreamUserData.t) (w : World) :
    UpstreamUserData.id d <> k ->
    quiet_step k w (after (upsert_user_merge d w))
| quiet_delete_user (user_id : Z) (w : World) :
    quiet_step k w (after (delete_user user_id w))
| quiet_world (w w' : World) :
    users w' = users w -> quiet_step k w w'.

Inductive quiet_history (k : Z) (w0 : World) : World -> Prop :=
| quiet_start : quiet_history k w0 w0
| quiet_then (w w' : World) :
    quiet_history k w0 w -> quiet_step k w w' -> quiet_history k w0 w'.

(** * Properties *)

(** ** Website normalization *)

Lemma normalize_website_scheme (website : string) :
  has_scheme website = true -> normalize_website website = website.
Proof.
  unfold normalize_website, has_scheme. intros H.
  destruct website as [|c rest]; [discriminate H|].
  cbn [String.eqb]. now rewrite H.
Qed.

Lemma has_scheme_https (website : string) :
  has_scheme ("https://" ++ website)%string = true.
Proof.
  unfold has_scheme. cbn.
  destruct website; reflexivity.
Qed.

(** C6: a website that starts with [http://] or [https://] is returned as it
    is, the empty website gives the empty string, and any other website
    gets [https://] in front. *)
Theorem normalize_website_cases (website : string) :
  (prefix "http://" website = true \/ prefix "https://" website = true ->
     normalize_website website = website)
  /\ (website = "" -> normalize_website website = "")
  /\ (website <> "" ->
      prefix "http://" website = false ->
      prefix "https://" website = false ->
      normalize_website website = ("https://" ++ website)%string)
  /\ normalize_website "example.com" = "https://example.com"
  /\ normalize_website "http://example.com" = "http://example.com"
  /\ normalize_website "" = "".
Proof.
  repeat split; try reflexivity.
  - intros H. apply normalize_website_scheme. unfold has_scheme.
    destruct H as [H | H]; rewrite H; [reflexivity | apply orb_true_r].
  - intros ->. reflexivity.
  - intros Hne H1 H2. unfold normalize_website.
    destruct (String.eqb_spec website ""); [contradiction|].
    now rewrite H1, H2.
Qed.

Lemma normalize_website_cases_witness :
  normalize_website "hildegard.org" = "https://hildegard.org".
Proof.
  destruct (normalize_website_cases "hildegard.org") as (_ & _ & H & _).
  apply H; [discriminate | reflexivity | reflexivity].
Defined.

(** C8: normalizing a website twice gives what normalizing it once gives. *)
Theorem normalize_website_idempotent (x : string) :
  normalize_website (normalize_website x) = normalize_website x.
Proof.
  unfold normalize_website at 2 3.
  destruct (String.eqb_spec x ""); [reflexivity|].
  destruct (prefix "http://" x || prefix "https://" x) eqn:E.
  - now apply normalize_website_scheme.
  - apply normalize_website_scheme, has_scheme_https.
Qed.

(** ** The staleness check *)

Lemma is_cache_stale_run (updated_at : option Z) (w : World) :
  is_cache_stale updated_at w =
  (Ok match updated_at with
      | None => true
      | Some t =>
          timedelta_minutes (CACHE_DURATION_MINUTES (config w)) <? clock w - t
      end, w).
Proof. destruct updated_at; reflexivity. Qed.

(** C2: an absent timestamp is stale; a present one is stale exactly when
    the clock is more than the cache duration past it, so an age equal to
    the duration is fresh and any larger age is stale. *)
Theorem is_cache_stale_threshold (w : World) (last_updated eps : Z) :
  value (is_cache_stale None w) = Ok true
  /\ (exists b, value (is_cache_stale (Some last_updated) w) = Ok b
                /\ (b = true <-> clock w - last_updated > cache_duration w))
  /\ value (is_cache_stale (Some last_updated)
              (at_clock (last_updated + cache_duration w) w)) = Ok false
  /\ (0 < eps ->
      value (is_cache_stale (Some last_updated)
               (at_clock (last_updated + cache_duration w + eps) w)) = Ok true).
Proof.
  rewrite !is_cache_stale_run. unfold cache_duration.
  cbn [value fst at_clock config clock].
  set (ttl := timedelta_minutes _). repeat split.
  - eexists. split; [reflexivity|]. rewrite Z.ltb_lt. lia.
  - f_equal. apply Z.ltb_ge. lia.
  - intros Heps. f_equal. apply Z.ltb_lt. lia.
Qed.

Lemma is_cache_stale_threshold_witness :
  value (is_cache_stale (Some 0) (at_clock (0 + 600000000 + 1) empty_world))
  = Ok true.
Proof.
  destruct (is_cache_stale_threshold empty_world 0 1) as (_ & _ & _ & H).
  apply H. lia.
Defined.

(** C9, as the code has it: the check takes one argument and reads the clock
    and the configured duration from its surroundings; these three values
    fix its result, and it changes nothing. *)
Theorem is_cache_stale_depends_on_clock (updated_at : option Z) (w1 w2 : World) :
  clock w1 = clock w2 ->
  CACHE_DURATION_MINUTES (config w1) = CACHE_DURATION_MINUTES (config w2) ->
  value (is_cache_stale updated_at w1) = value (is_cache_stale updated_at w2)
  /\ after (is_cache_stale updated_at w1) = w1.
Proof.
  intros Hc Hd. rewrite !is_cache_stale_run. cbn [value after fst snd].
  rewrite Hc, Hd. split; reflexivity.
Qed.

Lemma is_cache_stale_depends_on_clock_witness :
  value (is_cache_stale (Some 5) empty_world)
  = value (is_cache_stale (Some 5) (set_users [] empty_world))
  /\ after (is_cache_stale (Some 5) empty_world) = empty_world.
Proof.
  apply (is_cache_stale_depends_on_clock (Some 5) empty_world
           (set_users [] empty_world)); reflexivity.
Defined.

(** C9, as stated, fails: the same argument under the same configuration is
    fresh at one reading of the clock and stale at a later one. *)
Lemma is_cache_stale_not_a_function_of_its_argument :
  config (at_clock 600000000 empty_world)
  = config (at_clock 600000001 empty_world)
  /\ value (is_cache_stale (Some 0) (at_clock 600000000 empty_world))
     = Ok false
  /\ value (is_cache_stale (Some 0) (at_clock 600000001 empty_world))
     = Ok true
  /\ value (is_cache_stale (Some 0) (at_clock 600000000 empty_world))
     <> value (is_cache_stale (Some 0) (at_clock 600000001 empty_world)).
Proof. repeat split. discriminate. Qed.

(** ** The table *)

Section Table.
Variable k : Z.
Variable r : User.t.
Hypothesis r_key : has_id k r = true.

Lemma find_existsb (p : User.t -> bool) (rows : list User.t) :
  existsb p rows = match find p rows with Some _ => true | None => false end.
Proof.
  induction rows as [|x rows IH]; cbn; [reflexivity|].
  destruct (p x); [reflexivity | exact IH].
Qed.

Lemma find_replaced (rows : list User.t) :
  existsb (has_id k) rows = true ->
  find (has_id k) (map (fun x => if has_id k x then r else x) rows) = Some r.
Proof.
  induction rows as [|x rows IH]; cbn; [discriminate|].
  destruct (has_id k x) eqn:E; cbn.
  - intros _. now rewrite r_key.
  - rewrite E. exact IH.
Qed.

Lemma find_appended (rows : list User.t) :
  existsb (has_id k) rows = false ->
  find (has_id k) (rows ++ [r]) = Some r.
Proof.
  induction rows as [|x rows IH]; cbn.
  - intros _. now rewrite r_key.
  - destruct (has_id k x); [discriminate | exact IH].
Qed.
End Table.

Lemma find_has_id (k : Z) (rows : list User.t) (x : User.t) :
  find (has_id k) rows = Some x -> User.id x = k.
Proof.
  intros H. apply find_some in H. destruct H as [_ H].
  unfold has_id in H. now apply Z.eqb_eq.
Qed.

Lemma existsb_false_iff {A} (p : A -> bool) (l : list A) :
  existsb p l = false <-> forall x, In x l -> p x = false.
Proof.
  split.
  - intros H x Hx. destruct (p x) eqn:E; [|reflexivity].
    rewrite <- H. symmetry. apply existsb_exists. now exists x.
  - intros H. destruct (existsb p l) eqn:E; [|reflexivity].
    apply existsb_exists in E. destruct E as (x & Hx & Hp).
    now rewrite (H x Hx) in Hp.
Qed.

(** ** Upsert *)

Lemma upsert_write_existing (d : UpstreamUserData.t) (t : Z) (e : User.t)
    (w : World) :
  User.id e = UpstreamUserData.id d ->
  upsert_write d t (Some e) w =
  (assign_commit (row_of d t) ;; refresh (row_of d t)) w.
Proof. intros H. unfold upsert_write, row_of. now rewrite H. Qed.

Lemma upsert_user_run (d : UpstreamUserData.t) (w : World) :
  upsert_user d w =
  match find (has_id (UpstreamUserData.id d)) (users w) with
  | Some _ =>
      if username_taken_by_other (UpstreamUserData.id d)
           (UpstreamUserData.username d) (users w)
      then (Raise (IntegrityError "users_username_key"), w)
      else (Ok (row_of d (clock w)),
            set_users (replaced (UpstreamUserData.id d) (row_of d (clock w))
                         (users w)) w)
  | None =>
      if negb (in_int4 (UpstreamUserData.id d)) then (Raise DataError, w)
      else if existsb (has_username (UpstreamUserData.username d)) (users w)
      then (Raise (IntegrityError "users_username_key"), w)
      else (Ok (row_of d (clock w)),
            set_users (users w ++ [row_of d (clock w)]) w)
  end.
Proof.
  unfold upsert_user, bind, now, query_first.
  destruct (find _ (users w)) as [e|] eqn:F.
  - rewrite (upsert_write_existing _ _ _ _ (find_has_id _ _ _ F)).
    unfold bind, assign_commit, refresh, username_taken_by_other, replaced.
    cbn [User.id User.username row_of].
    rewrite (find_existsb (has_id _)), F. cbn [negb].
    destruct (existsb _ (users w)); [reflexivity|].
    cbn [users set_users].
    rewrite find_replaced; [reflexivity | apply Z.eqb_refl |].
    now rewrite find_existsb, F.
  - unfold upsert_write, bind, add_commit, refresh. fold (row_of d (clock w)).
    cbn [User.id User.username row_of].
    destruct (in_int4 _); [|reflexivity]. cbn [negb].
    rewrite (find_existsb (has_id _)), F.
    destruct (existsb _ (users w)); [reflexivity|].
    cbn [users set_users].
    rewrite find_appended; [reflexivity | apply Z.eqb_refl |].
    now rewrite find_existsb, F.
Qed.

Lemma upsert_user_raced_alone (d : UpstreamUserData.t) (w : World) :
  upsert_user_raced (ret tt) d w = upsert_user d w.
Proof. reflexivity. Qed.

(** What [upsert_user] leaves alone. *)
Lemma upsert_user_frame (d : UpstreamUserData.t) (w : World) :
  config (after (upsert_user d w)) = config w
  /\ clock (after (upsert_user d w)) = clock w
  /\ upstream (after (upsert_user d w)) = upstream w
  /\ http_log (after (upsert_user d w)) = http_log w.
Proof.
  rewrite upsert_user_run. branches; repeat split.
Qed.

Lemma upsert_user_raise (d : UpstreamUserData.t) (w : World) (e : exn) :
  value (upsert_user d w) = Raise e -> after (upsert_user d w) = w.
Proof.
  rewrite upsert_user_run.
  branches; cbn; intros H; try reflexivity; discriminate H.
Qed.

Lemma upsert_user_ok (d : UpstreamUserData.t) (w : World) (row : User.t) :
  value (upsert_user d w) = Ok row ->
  row = row_of d (clock w)
  /\ find (has_id (UpstreamUserData.id d)) (users (after (upsert_user d w)))
     = Some row.
Proof.
  rewrite upsert_user_run.
  destruct (find _ _) eqn:F.
  - destruct (username_taken_by_other _ _ _); cbn; intros H;
      [discriminate H|].
    injection H as <-. split; [reflexivity|].
    apply find_replaced; [apply Z.eqb_refl|]. now rewrite find_existsb, F.
  - destruct (in_int4 _); cbn; [|discriminate].
    destruct (existsb _ _); cbn; intros H; [discriminate H|].
    injection H as <-. split; [reflexivity|].
    apply find_appended; [apply Z.eqb_refl|]. now rewrite find_existsb, F.
Qed.




(** ** A lost race on the primary key *)





(** ** The read path *)

Lemma bind_ok {A B} (m : M A) (k : A -> M B) (w w' : World) (a : A) :
  m w = (Ok a, w') -> bind m k w = k a w'.
Proof. intros H. unfold bind. now rewrite H. Qed.

Lemma must_refetch_run (user : option User.t) (bypass_cache : bool)
    (w : World) :
  must_refetch user bypass_cache w =
  (Ok match user with
      | Some user =>
          (cache_duration w <? clock w - User.updated_at user) || bypass_cache
      | None => true
      end, w).
Proof.
  destruct user as [user|]; [|reflexivity].
  unfold must_refetch. erewrite bind_ok by apply is_cache_stale_run.
  fold (cache_duration w). now destruct (_ <? _).
Qed.

(** The refetching branch of [get_user], up to the response. *)
Lemma refetch_branch (w : World) :
  (user <- (upstream_data <- fetch_from_upstream ;;
            user <- upsert_user upstream_data ;;
            ret (Some user)) ;;
   match user with
   | Some user => ret (response_of user)
   | None => raise AttributeError
   end) w = fetch_then_upsert w.
Proof.
  unfold fetch_then_upsert, bind, ret.
  destruct (fetch_from_upstream w) as [[d|e] w1]; [|reflexivity].
  destruct (upsert_user d w1) as [[u|e] w2]; reflexivity.
Qed.

Lemma get_user_run (user_id : Z) (bypass_cache : bool) (w : World) :
  get_user user_id bypass_cache w =
  match find (has_id user_id) (users w) with
  | Some user =>
      if (cache_duration w <? clock w - User.updated_at user) || bypass_cache
      then fetch_then_upsert w
      else (Ok (response_of user), w)
  | None => fetch_then_upsert w
  end.
Proof.
  unfold get_user.
  erewrite bind_ok by reflexivity.
  erewrite bind_ok by apply must_refetch_run.
  destruct (find (has_id user_id) (users w)) as [user|].
  - destruct (_ || _); [apply refetch_branch | reflexivity].
  - apply refetch_branch.
Qed.

Lemma fetch_from_upstream_frame (w : World) :
  users (after (fetch_from_upstream w)) = users w
  /\ config (after (fetch_from_upstream w)) = config w
  /\ upstream (after (fetch_from_upstream w)) = upstream w
  /\ http_log (after (fetch_from_upstream w))
     = UPSTREAM_API_URL (config w) :: http_log w.
Proof.
  unfold fetch_from_upstream. destruct (exchange _); repeat split.
Qed.

Lemma fetch_then_upsert_http_log (w : World) :
  http_log (after (fetch_then_upsert w))
  = UPSTREAM_API_URL (config w) :: http_log w.
Proof.
  unfold fetch_then_upsert, bind.
  pose proof (fetch_from_upstream_frame w) as (_ & _ & _ & Hlog).
  destruct (fetch_from_upstream w) as [[d|e] w1]; [|exact Hlog].
  pose proof (upsert_user_frame d w1) as (_ & _ & _ & Hlog').
  destruct (upsert_user d w1) as [[u|e] w2]; cbn in *; congruence.
Qed.

Lemma cons_neq {A} (x : A) (l : list A) : x :: l <> l.
Proof.
  intros H. apply (f_equal (@List.length A)) in H. cbn in H.
  now apply Nat.neq_succ_diag_l in H.
Qed.

Lemma served_from_store_dec (user_id : Z) (bypass_cache : bool) (w : World) :
  served_from_store user_id bypass_cache w <->
  match find (has_id user_id) (users w) with
  | Some user =>
      (cache_duration w <? clock w - User.updated_at user) || bypass_cache
      = false
  | None => False
  end.
Proof.
  unfold served_from_store.
  destruct (find (has_id user_id) (users w)) as [user|].
  - split.
    + intros (u & [= <-] & Hs & ->). rewrite is_cache_stale_run in Hs.
      injection Hs as Hs. unfold cache_duration. now rewrite Hs.
    + intros H. apply orb_false_elim in H. destruct H as [Hs ->].
      exists user. rewrite is_cache_stale_run. cbn.
      unfold cache_duration in Hs. now rewrite Hs.
  - split; [intros (u & [=] & _) | contradiction].
Qed.

Lemma get_user_miss (w : World) (user_id : Z) (bypass_cache : bool) :
  ~ served_from_store user_id bypass_cache w ->
  get_user user_id bypass_cache w = fetch_then_upsert w.
Proof.
  rewrite served_from_store_dec, get_user_run.
  destruct (find _ _) as [user|]; [|reflexivity].
  destruct (_ || _); [reflexivity | intros C; now contradiction C].
Qed.

(** C1: [get_user] answers from the stored row without any request to the
    upstream exactly when a row of that id exists, is not stale, and no
    bypass is asked for; then the answer is that row's view and nothing
    changes.  In every other case [get_user] is one fetch-then-upsert
    cycle. *)
Theorem get_user_read_path (w : World) (user_id : Z) (bypass_cache : bool) :
  (http_log (after (get_user user_id bypass_cache w)) = http_log w
   <-> served_from_store user_id bypass_cache w)
  /\ (forall user,
        find (has_id user_id) (users w) = Some user ->
        value (is_cache_stale (Some (User.updated_at user)) w) = Ok false ->
        bypass_cache = false ->
        get_user user_id bypass_cache w = (Ok (response_of user), w))
  /\ (~ served_from_store user_id bypass_cache w ->
      get_user user_id bypass_cache w = fetch_then_upsert w
      /\ http_log (after (get_user user_id bypass_cache w))
         = UPSTREAM_API_URL (config w) :: http_log w).
Proof.
  split; [|split].
  - rewrite served_from_store_dec, get_user_run.
    destruct (find _ _) as [user|].
    + destruct (_ || _).
      * rewrite fetch_then_upsert_http_log. split; [|discriminate].
        intros H. now apply cons_neq in H.
      * split; reflexivity.
    + rewrite fetch_then_upsert_http_log. split; [|contradiction].
      intros H. now apply cons_neq in H.
  - intros user F Hs ->. rewrite get_user_run, F.
    rewrite is_cache_stale_run in Hs.
    injection Hs as Hs. unfold cache_duration. now rewrite Hs.
  - intros Hmiss. rewrite (get_user_miss _ _ _ Hmiss).
    split; [reflexivity | apply fetch_then_upsert_http_log].
Qed.

Lemma get_user_read_path_witness :
  get_user 1 false cached_world
  = (Ok (response_of (row_of leanne (clock empty_world))), cached_world)
  /\ get_user 1 false empty_world = fetch_then_upsert empty_world.
Proof.
  destruct (get_user_read_path cached_world 1 false) as (_ & Hhit & _).
  destruct (get_user_read_path empty_world 1 false) as (_ & _ & Hmiss).
  split.
  - apply Hhit; reflexivity.
  - apply Hmiss. intros (user & F & _). discriminate F.
Defined.

(** C4: [refresh_user] and [get_user] with the bypass on give the same
    result and leave the same world, table included; each is one
    fetch-then-upsert cycle, whatever the table holds. *)
Theorem refresh_user_is_get_user_with_bypass (w : World) (user_id : Z) :
  get_user user_id true w = refresh_user user_id w
  /\ refresh_user user_id w = fetch_then_upsert w
  /\ http_log (after (refresh_user user_id w))
     = UPSTREAM_API_URL (config w) :: http_log w.
Proof.
  split; [|split].
  - rewrite get_user_run.
    destruct (find _ _) as [user|]; [|reflexivity].
    now rewrite orb_true_r.
  - reflexivity.
  - apply fetch_then_upsert_http_log.
Qed.

(** ** A failing fetch *)

Lemma fetch_then_upsert_fails (w : World) :
  fetch_fails w ->
  (exists e, value (fetch_then_upsert w) = Raise e)
  /\ users (after (fetch_then_upsert w)) = users w.
Proof.
  unfold fetch_fails, fetch_then_upsert, bind, fetch_from_upstream.
  intros H.
  destruct (exchange _) as [| | | |data]; cbn; try (split; [eexists|]; reflexivity).
  now contradiction (H data).
Qed.

(** C7: when the fetch fails, [refresh_user] raises, [get_user] raises
    unless it answers from the stored row, and either way the table is
    exactly what it was. *)
Theorem failed_fetch_writes_nothing (w : World) (user_id : Z)
    (bypass_cache : bool) :
  fetch_fails w ->
  (exists e, value (refresh_user user_id w) = Raise e)
  /\ users (after (refresh_user user_id w)) = users w
  /\ (~ served_from_store user_id bypass_cache w ->
      exists e, value (get_user user_id bypass_cache w) = Raise e)
  /\ users (after (get_user user_id bypass_cache w)) = users w.
Proof.
  intros H. destruct (fetch_then_upsert_fails w H) as [Hraise Hsame].
  split; [exact Hraise|]. split; [exact Hsame|].
  rewrite served_from_store_dec, get_user_run.
  destruct (find _ _) as [user|].
  - destruct (_ || _).
    + split; [intros _; exact Hraise | exact Hsame].
    + split; [intros C; now contradiction C | reflexivity].
  - split; [intros _; exact Hraise | exact Hsame].
Qed.

Lemma failed_fetch_writes_nothing_witness :
  (exists e, value (refresh_user 1 (offline cached_world)) = Raise e)
  /\ users (after (refresh_user 1 (offline cached_world))) = users cached_world
  /\ (~ served_from_store 1 true (offline cached_world) ->
      exists e, value (get_user 1 true (offline cached_world)) = Raise e)
  /\ users (after (get_user 1 true (offline cached_world)))
     = users cached_world.
Proof.
  apply (failed_fetch_writes_nothing (offline cached_world) 1 true).
  intros data. discriminate.
Defined.

(** ** Which row a miss writes *)

(** C10: on a miss [get_user] requests the configured URL and upserts the
    payload under the payload's own id; the [user_id] asked for plays no
    part, so the row written and returned is the upstream user's.  Asking
    for user 2 on an empty table stores and returns user 1. *)
Theorem get_user_miss_keyed_by_payload (w : World) (user_id : Z)
    (bypass_cache : bool) (data : UpstreamUserData.t) :
  ~ served_from_store user_id bypass_cache w ->
  exchange (upstream w (UPSTREAM_API_URL (config w))) = Payload data ->
  http_log (after (get_user user_id bypass_cache w))
  = UPSTREAM_API_URL (config w) :: http_log w
  /\ get_user user_id bypass_cache w
     = (user <- upsert_user data ;; ret (response_of user))
         (after (fetch_from_upstream w))
  /\ (forall resp,
        value (get_user user_id bypass_cache w) = Ok resp ->
        exists row,
          resp = response_of row
          /\ row = row_of data (clock (after (fetch_from_upstream w)))
          /\ User.id row = UpstreamUserData.id data
          /\ find (has_id (UpstreamUserData.id data))
                  (users (after (get_user user_id bypass_cache w)))
             = Some row)
  /\ value (get_user 2 false empty_world)
     = Ok (response_of (row_of leanne 1000250000))
  /\ users (after (get_user 2 false empty_world))
     = [row_of leanne 1000250000]
  /\ User.id (row_of leanne 1000250000) = 1.
Proof.
  intros Hmiss Hpayload.
  pose proof (get_user_miss w user_id bypass_cache Hmiss) as Hrun.
  assert (Hlog : http_log (after (get_user user_id bypass_cache w))
                 = UPSTREAM_API_URL (config w) :: http_log w).
  { rewrite Hrun. apply fetch_then_upsert_http_log. }
  assert (Hfetch : fetch_from_upstream w
                   = (Ok data, after (fetch_from_upstream w))).
  { unfold fetch_from_upstream. now rewrite Hpayload. }
  assert (Hrun' : get_user user_id bypass_cache w
     = (user <- upsert_user data ;; ret (response_of user))
         (after (fetch_from_upstream w))).
  { rewrite Hrun. unfold fetch_then_upsert.
    now rewrite (bind_ok _ _ _ _ _ Hfetch). }
  split; [exact Hlog|]. split; [exact Hrun'|].
  split; [|repeat split].
  intros resp. rewrite Hrun'. unfold bind, ret.
  set (w1 := after (fetch_from_upstream w)).
  pose proof (upsert_user_ok data w1) as Hok.
  destruct (upsert_user data w1) as [[row|e] w2]; cbn; [|discriminate].
  intros [= <-]. destruct (Hok row eq_refl) as [-> Hfind].
  exists (row_of data (clock w1)). repeat split. exact Hfind.
Qed.

Lemma get_user_miss_keyed_by_payload_witness :
  get_user 2 false empty_world
  = (user <- upsert_user leanne ;; ret (response_of user))
      (after (fetch_from_upstream empty_world)).
Proof.
  destruct (get_user_miss_keyed_by_payload empty_world 2 false leanne)
    as (_ & H & _).
  - intros (user & F & _). discriminate F.
  - reflexivity.
  - exact H.
Defined.

(** ** The two upserts *)

Lemma merge_run (user : User.t) (w : World) :
  merge user w =
  (Ok match find (has_id (User.id user)) (users w) with
      | Some _ => Persistent user
      | None => Pending user
      end, w).
Proof.
  unfold merge. erewrite bind_ok by reflexivity.
  now destruct (find _ _).
Qed.

Lemma upsert_user_merge_run (d : UpstreamUserData.t) (w : World) :
  upsert_user_merge d w = upsert_user d w.
Proof.
  unfold upsert_user_merge, upsert_user, merge.
  fold (row_of d).
  erewrite bind_ok by reflexivity.
  erewrite bind_ok by apply merge_run.
  erewrite (bind_ok now) by reflexivity.
  erewrite (bind_ok (query_first _)) by reflexivity.
  cbn [row_of User.id].
  destruct (find _ (users w)) as [e|] eqn:F.
  - rewrite (upsert_write_existing _ _ _ _ (find_has_id _ _ _ F)).
    reflexivity.
  - reflexivity.
Qed.

(** X1: [upsert_user_merge] does what [upsert_user] does: from every world
    and for every payload the two return or raise the same and leave the
    same world. *)
Theorem upsert_user_merge_agrees (w : World) (d : UpstreamUserData.t) :
  upsert_user_merge d w = upsert_user d w.
Proof. apply upsert_user_merge_run. Qed.

(** ** Lookups after an upsert *)

Section Usernames.
Variable k : Z.
Variable s : string.
Variable r : User.t.
Hypothesis r_key : has_id k r = true.
Hypothesis r_name : has_username s r = true.

Lemma find_username_appended (rows : list User.t) :
  existsb (has_username s) rows = false ->
  find (has_username s) (rows ++ [r]) = Some r.
Proof.
  induction rows as [|x rows IH]; cbn.
  - intros _. now rewrite r_name.
  - destruct (has_username s x); [discriminate | exact IH].
Qed.

Lemma find_username_replaced (rows : list User.t) :
  existsb (has_id k) rows = true ->
  username_taken_by_other k s rows = false ->
  find (has_username s) (replaced k r rows) = Some r.
Proof.
  unfold username_taken_by_other, replaced.
  induction rows as [|x rows IH]; cbn; [discriminate|].
  destruct (has_id k x); cbn.
  - intros _ _. now rewrite r_name.
  - destruct (has_username s x); [discriminate | exact IH].
Qed.

Lemma taken_replaced (rows : list User.t) :
  username_taken_by_other k s (replaced k r rows)
  = username_taken_by_other k s rows.
Proof.
  unfold username_taken_by_other, replaced.
  induction rows as [|x rows IH]; cbn; [reflexivity|].
  rewrite IH. destruct (has_id k x) eqn:E.
  - now rewrite r_key.
  - now rewrite E.
Qed.

Lemma taken_appended (rows : list User.t) :
  existsb (has_username s) rows = false ->
  username_taken_by_other k s (rows ++ [r]) = false.
Proof.
  unfold username_taken_by_other. intros H.
  rewrite existsb_app. cbn. rewrite r_key. cbn.
  rewrite orb_false_r. apply existsb_false_iff. intros x Hx.
  rewrite (proj1 (existsb_false_iff _ _) H x Hx). apply andb_false_r.
Qed.
End Usernames.

Lemma row_of_has_username (d : UpstreamUserData.t) (t : Z) :
  has_username (UpstreamUserData.username d) (row_of d t) = true.
Proof. apply String.eqb_refl. Qed.

Lemma row_of_has_id (d : UpstreamUserData.t) (t : Z) :
  has_id (UpstreamUserData.id d) (row_of d t) = true.
Proof. apply Z.eqb_refl. Qed.

(** A successful upsert, read off [upsert_user_run]. *)
Lemma upsert_user_ok_cases (d : UpstreamUserData.t) (w : World) (r : User.t) :
  value (upsert_user d w) = Ok r ->
  r = row_of d (clock w)
  /\ ((existsb (has_id (UpstreamUserData.id d)) (users w) = true
       /\ username_taken_by_other (UpstreamUserData.id d)
            (UpstreamUserData.username d) (users w) = false
       /\ after (upsert_user d w)
          = set_users (replaced (UpstreamUserData.id d) r (users w)) w)
      \/ (existsb (has_id (UpstreamUserData.id d)) (users w) = false
          /\ in_int4 (UpstreamUserData.id d) = true
          /\ existsb (has_username (UpstreamUserData.username d)) (users w)
             = false
          /\ after (upsert_user d w) = set_users (users w ++ [r]) w)).
Proof.
  rewrite upsert_user_run, (find_existsb (has_id _)).
  destruct (find _ _).
  - destruct (username_taken_by_other _ _ _) eqn:T; cbn; intros H;
      [discriminate H|].
    injection H as <-. split; [reflexivity|]. left. now repeat split.
  - destruct (in_int4 _); cbn; [|discriminate].
    destruct (existsb _ _) eqn:U; cbn; intros H; [discriminate H|].
    injection H as <-. split; [reflexivity|]. right. now repeat split.
Qed.

(** X2: after a successful upsert, looking the payload's id up and looking
    its username up both give the row that was returned. *)
Theorem upsert_user_then_lookup (w : World) (d : UpstreamUserData.t)
    (r : User.t) :
  value (upsert_user d w) = Ok r ->
  value (get_user_by_id (UpstreamUserData.id d) (after (upsert_user d w)))
  = Ok (Some r)
  /\ value (get_user_by_username (UpstreamUserData.username d)
              (after (upsert_user d w)))
     = Ok (Some r).
Proof.
  intros H. destruct (upsert_user_ok_cases d w r H) as [-> Hcase].
  unfold get_user_by_id, get_user_by_username, query_first. cbn [value fst].
  destruct Hcase as [(Hid & Hfree & ->) | (Hid & _ & Hfree & ->)];
    cbn [users set_users].
  - split; f_equal.
    + apply find_replaced; [apply row_of_has_id | exact Hid].
    + apply find_username_replaced;
        [apply row_of_has_username | exact Hid | exact Hfree].
  - split; f_equal.
    + apply find_appended; [apply row_of_has_id | exact Hid].
    + apply find_username_appended; [apply row_of_has_username | exact Hfree].
Qed.

Lemma upsert_user_then_lookup_witness :
  value (get_user_by_id 1 (after (upsert_user leanne empty_world)))
  = Ok (Some (row_of leanne (clock empty_world)))
  /\ value (get_user_by_username "Bret"
              (after (upsert_user leanne empty_world)))
     = Ok (Some (row_of leanne (clock empty_world))).
Proof.
  apply (upsert_user_then_lookup empty_world leanne). reflexivity.
Defined.

(** X3: an upsert that succeeded succeeds again on the table it left,
    whatever the time: the second one updates the row in place, the number
    of rows stays, and the two rows returned differ in [updated_at] at
    most. *)
Theorem upsert_user_again (w w2 : World) (d : UpstreamUserData.t)
    (r : User.t) :
  value (upsert_user d w) = Ok r ->
  users w2 = users (after (upsert_user d w)) ->
  upsert_user d w2
  = (Ok (row_of d (clock w2)),
     set_users (replaced (UpstreamUserData.id d) (row_of d (clock w2))
                  (users w2)) w2)
  /\ List.length (users (after (upsert_user d w2))) = List.length (users w2)
  /\ r = row_of d (clock w).
Proof.
  intros H Hsame.
  destruct (upsert_user_ok d w r H) as [_ Hfind].
  destruct (upsert_user_ok_cases d w r H) as [Hr Hcase].
  assert (Hfree : username_taken_by_other (UpstreamUserData.id d)
                    (UpstreamUserData.username d) (users w2) = false).
  { rewrite Hsame.
    destruct Hcase as [(_ & Hfree & ->) | (_ & _ & Hfree & ->)];
      cbn [users set_users]; subst r.
    - rewrite taken_replaced; [exact Hfree | apply row_of_has_id].
    - apply taken_appended; [apply row_of_has_id | exact Hfree]. }
  assert (Hrun : upsert_user d w2
    = (Ok (row_of d (clock w2)),
       set_users (replaced (UpstreamUserData.id d) (row_of d (clock w2))
                    (users w2)) w2)).
  { rewrite upsert_user_run, Hsame, Hfind, <- Hsame, Hfree. reflexivity. }
  split; [exact Hrun|]. split; [|exact Hr].
  rewrite Hrun. cbn [after snd users set_users]. unfold replaced.
  apply length_map.
Qed.

Lemma upsert_user_again_witness :
  upsert_user leanne (at_clock 2000000000 cached_world)
  = (Ok (row_of leanne 2000000000),
     set_users [row_of leanne 2000000000] (at_clock 2000000000 cached_world)).
Proof.
  destruct (upsert_user_again empty_world (at_clock 2000000000 cached_world)
              leanne (row_of leanne (clock empty_world))) as (H & _);
    [reflexivity | reflexivity | exact H].
Defined.

(** X4: a successful upsert adds one row when the payload's id was not in
    the table and none when it was; an upsert that raises adds none. *)
Theorem count_users_after_upsert (w : World) (d : UpstreamUserData.t) :
  exists n,
    value (count_users w) = Ok n
    /\ value (count_users (after (upsert_user d w)))
       = Ok (n + match value (upsert_user d w),
                       value (get_user_by_id (UpstreamUserData.id d) w) with
                 | Ok _, Ok None => 1
                 | _, _ => 0
                 end).
Proof.
  eexists. split; [reflexivity|].
  unfold count_users, query_count, get_user_by_id, query_first.
  cbn [value fst]. rewrite upsert_user_run.
  destruct (find _ _).
  - destruct (username_taken_by_other _ _ _); cbn; f_equal;
      unfold replaced; rewrite ?length_map; lia.
  - destruct (in_int4 _); cbn; [|f_equal; lia].
    destruct (existsb _ _); cbn; f_equal; [lia|].
    rewrite length_app. cbn. lia.
Qed.

(** ** Deleting *)

Lemma delete_user_run (user_id : Z) (w : World) :
  delete_user user_id w =
  match find (has_id user_id) (users w) with
  | Some _ =>
      (Ok true,
       set_users (filter (fun x => negb (has_id user_id x)) (users w)) w)
  | None => (Ok false, w)
  end.
Proof.
  unfold delete_user, get_user_by_id. erewrite bind_ok by reflexivity.
  destruct (find _ _) as [u|] eqn:F; [|reflexivity].
  unfold bind, delete_commit. now rewrite (find_has_id _ _ _ F).
Qed.

Lemma filter_all {A} (p : A -> bool) (l : list A) :
  existsb (fun x => negb (p x)) l = false -> filter p l = l.
Proof.
  induction l as [|x l IH]; cbn; [reflexivity|].
  destruct (p x); cbn; [|discriminate].
  intros H. now rewrite IH.
Qed.

Lemma find_filtered_out {A} (p : A -> bool) (l : list A) :
  find p (filter (fun x => negb (p x)) l) = None.
Proof.
  induction l as [|x l IH]; cbn; [reflexivity|].
  destruct (p x) eqn:E; cbn; [exact IH | now rewrite E].
Qed.

(** X5: [delete_user] never raises; it answers [True] exactly when a row
    of that id was there.  Afterwards the table is the old one without the
    rows of that id, the others in their order, and a lookup of the id
    finds nothing.  When it answers [False] the world is untouched. *)
Theorem delete_user_outcome (w : World) (user_id : Z) :
  exists b,
    value (delete_user user_id w) = Ok b
    /\ (b = true <-> exists u, value (get_user_by_id user_id w) = Ok (Some u))
    /\ users (after (delete_user user_id w))
       = filter (fun x => negb (has_id user_id x)) (users w)
    /\ value (get_user_by_id user_id (after (delete_user user_id w)))
       = Ok None
    /\ (b = false -> after (delete_user user_id w) = w).
Proof.
  rewrite delete_user_run. unfold get_user_by_id, query_first.
  cbn [value fst].
  destruct (find _ (users w)) as [u|] eqn:F.
  - exists true. cbn. repeat split.
    + intros _. now exists u.
    + f_equal. apply find_filtered_out.
    + discriminate.
  - exists false. cbn. repeat split.
    + discriminate.
    + intros (u & [=]).
    + symmetry. apply filter_all.
      assert (E : existsb (has_id user_id) (users w) = false)
        by now rewrite find_existsb, F.
      apply existsb_false_iff. intros x Hx. rewrite negb_involutive.
      exact (proj1 (existsb_false_iff _ _) E x Hx).
    + now rewrite F.
Qed.

Lemma delete_user_outcome_witness :
  after (delete_user 2 cached_world) = cached_world.
Proof.
  destruct (delete_user_outcome cached_world 2) as (b & Hv & _ & _ & _ & H).
  apply H. injection Hv as <-. reflexivity.
Defined.

(** X6: once an id is deleted, the next [get_user] for it cannot answer
    from the table, whatever the clock and the bypass flag: it goes through
    a fetch-then-upsert cycle. *)
Theorem get_user_after_delete (w w' : World) (user_id : Z)
    (bypass_cache : bool) :
  users w' = users (after (delete_user user_id w)) ->
  get_user user_id bypass_cache w' = fetch_then_upsert w'
  /\ http_log (after (get_user user_id bypass_cache w'))
     = UPSTREAM_API_URL (config w') :: http_log w'.
Proof.
  intros Hsame.
  assert (F : find (has_id user_id) (users w') = None).
  { rewrite Hsame, delete_user_run.
    destruct (find _ (users w)) eqn:E; cbn; [apply find_filtered_out | exact E]. }
  assert (Hrun : get_user user_id bypass_cache w' = fetch_then_upsert w').
  { now rewrite get_user_run, F. }
  split; [exact Hrun|]. rewrite Hrun. apply fetch_then_upsert_http_log.
Qed.

Lemma get_user_after_delete_witness :
  get_user 1 false (after (delete_user 1 cached_world))
  = fetch_then_upsert (after (delete_user 1 cached_world)).
Proof.
  apply (get_user_after_delete cached_world
           (after (delete_user 1 cached_world)) 1 false).
  reflexivity.
Defined.

(** ** The list of stale rows *)

Lemma get_stale_users_run (w : World) :
  get_stale_users w =
  (Ok (filter (fun user => User.updated_at user <? clock w - cache_duration w)
         (users w)), w).
Proof. reflexivity. Qed.

Lemma cutoff_is_staleness (w : World) (t : Z) :
  (t <? clock w - cache_duration w) = (cache_duration w <? clock w - t).
Proof.
  destruct (Z.ltb_spec t (clock w - cache_duration w));
    symmetry; [apply Z.ltb_lt | apply Z.ltb_ge]; lia.
Qed.

(** X7: [get_stale_users] lists exactly the rows on which [is_cache_stale]
    answers true at that moment, and [get_user] without bypass answers from
    the table exactly for the ids whose row is not listed. *)
Theorem get_stale_users_are_the_stale (w : World) :
  exists stale,
    get_stale_users w = (Ok stale, w)
    /\ (forall u,
          In u stale <->
          In u (users w)
          /\ value (is_cache_stale (Some (User.updated_at u)) w) = Ok true)
    /\ (forall user_id u,
          value (get_user_by_id user_id w) = Ok (Some u) ->
          (served_from_store user_id false w <-> ~ In u stale)).
Proof.
  eexists. split; [apply get_stale_users_run|]. split.
  - intros u. rewrite filter_In, is_cache_stale_run, cutoff_is_staleness.
    cbn [value fst]. unfold cache_duration. split.
    + intros [Hin Hs]. split; [exact Hin | now rewrite Hs].
    + intros [Hin [= Hs]]. now split.
  - intros user_id u. unfold get_user_by_id, query_first. cbn [value fst].
    intros [= F]. rewrite served_from_store_dec, F, orb_false_r.
    rewrite filter_In, cutoff_is_staleness.
    destruct (cache_duration w <? clock w - User.updated_at u).
    + split; [discriminate|]. intros C. exfalso. apply C. split; [|reflexivity].
      now apply find_some in F.
    + split; [|reflexivity]. intros _ [_ C]. discriminate C.
Qed.

Lemma get_stale_users_are_the_stale_witness :
  exists stale,
    get_stale_users cached_world = (Ok stale, cached_world)
    /\ ~ In (row_of leanne (clock empty_world)) stale.
Proof.
  destruct (get_stale_users_are_the_stale cached_world)
    as (stale & Hrun & _ & Hread).
  exists stale. split; [exact Hrun|].
  apply (Hread 1); [reflexivity|].
  exists (row_of leanne (clock empty_world)). repeat split.
Defined.

(** X8: a row that is stale stays stale as the clock moves on: the list of
    stale rows at an earlier time is contained in the list at any later
    time, as long as the table and the configured duration are the same. *)
Theorem stale_stays_stale (w : World) (t1 t2 : Z) (u : User.t) :
  t1 <= t2 ->
  (value (is_cache_stale (Some (User.updated_at u)) (at_clock t1 w)) = Ok true ->
   value (is_cache_stale (Some (User.updated_at u)) (at_clock t2 w)) = Ok true)
  /\ (forall l1 l2,
        value (get_stale_users (at_clock t1 w)) = Ok l1 ->
        value (get_stale_users (at_clock t2 w)) = Ok l2 ->
        In u l1 -> In u l2).
Proof.
  intros Hle. split.
  - rewrite !is_cache_stale_run. cbn [value fst at_clock config clock].
    intros [= H]. f_equal. apply Z.ltb_lt in H. apply Z.ltb_lt. lia.
  - intros l1 l2. rewrite !get_stale_users_run. unfold cache_duration.
    cbn [value fst at_clock config clock users].
    intros [= <-] [= <-]. rewrite !filter_In.
    intros [Hin H]. split; [exact Hin|].
    apply Z.ltb_lt in H. apply Z.ltb_lt. lia.
Qed.

Lemma stale_stays_stale_witness :
  value (is_cache_stale (Some (User.updated_at namesake))
           (at_clock 800000000 empty_world)) = Ok true.
Proof.
  destruct (stale_stays_stale empty_world 700000000 800000000 namesake)
    as [H _]; [lia | apply H; reflexivity].
Defined.

(** ** What every table keeps *)

Lemma NoDup_snoc {A} (l : list A) (a : A) :
  NoDup l -> ~ In a l -> NoDup (l ++ [a]).
Proof.
  intros Hl Ha. apply NoDup_app; [exact Hl | repeat constructor; intros [] |].
  intros x Hx [<- | []]. now apply Ha.
Qed.

Lemma filter_keeps_distinct {K} (key : User.t -> K) (keep : User.t -> bool)
    (rows : list User.t) :
  NoDup (map key rows) -> NoDup (map key (filter keep rows)).
Proof.
  intros Hrows. induction rows as [|row rows IHrows]; cbn in *; [trivial|].
  inversion_clear Hrows as [|? ? Hfresh Hrest].
  destruct (keep row); cbn; [|now apply IHrows].
  constructor; [|now apply IHrows].
  intros C. apply Hfresh. apply in_map_iff in C.
  destruct C as (y & Hy & Hin).
  apply in_map_iff. exists y. split; [exact Hy|].
  now apply filter_In in Hin.
Qed.

Lemma no_id_not_in (k : Z) (rows : list User.t) :
  existsb (has_id k) rows = false -> ~ In k (map User.id rows).
Proof.
  intros H C. apply in_map_iff in C. destruct C as (x & Hx & Hin).
  pose proof (proj1 (existsb_false_iff _ _) H x Hin) as E.
  unfold has_id in E. rewrite Hx, Z.eqb_refl in E. discriminate E.
Qed.

Lemma no_username_not_in (s : string) (rows : list User.t) :
  existsb (has_username s) rows = false -> ~ In s (map User.username rows).
Proof.
  intros H C. apply in_map_iff in C. destruct C as (x & Hx & Hin).
  pose proof (proj1 (existsb_false_iff _ _) H x Hin) as E.
  unfold has_username in E. rewrite Hx, String.eqb_refl in E. discriminate E.
Qed.

Section Replaced.
Variable k : Z.
Variable r : User.t.
Hypothesis r_key : has_id k r = true.

Lemma replaced_ids (rows : list User.t) :
  map User.id (replaced k r rows) = map User.id rows.
Proof.
  unfold replaced. induction rows as [|x rows IH]; cbn; [reflexivity|].
  rewrite IH. f_equal. destruct (has_id k x) eqn:E; [|reflexivity].
  unfold has_id in *. apply Z.eqb_eq in E, r_key. congruence.
Qed.

Lemma replaced_none (rows : list User.t) :
  existsb (has_id k) rows = false -> replaced k r rows = rows.
Proof.
  unfold replaced. induction rows as [|x rows IH]; cbn; [reflexivity|].
  destruct (has_id k x); cbn; [discriminate|]. intros H. now rewrite IH.
Qed.

Lemma In_replaced (rows : list User.t) (y : User.t) :
  In y (replaced k r rows) ->
  y = r \/ (In y rows /\ has_id k y = false).
Proof.
  unfold replaced. induction rows as [|x rows IH]; cbn; [intros []|].
  destruct (has_id k x) eqn:E.
  - intros [<- | H]; [now left|]. destruct (IH H) as [-> | [H1 H2]];
      [now left | right; now split; [right|]].
  - intros [<- | H]; [right; now split; [left|]|].
    destruct (IH H) as [-> | [H1 H2]]; [now left | right; now split; [right|]].
Qed.

Lemma replaced_usernames (rows : list User.t) :
  NoDup (map User.id rows) ->
  NoDup (map User.username rows) ->
  username_taken_by_other k (User.username r) rows = false ->
  NoDup (map User.username (replaced k r rows)).
Proof.
  unfold username_taken_by_other.
  induction rows as [|x rows IH]; cbn; [trivial|].
  intros Hid Hname Hfree.
  inversion_clear Hid as [|? ? Hx Hids].
  inversion_clear Hname as [|? ? Hn Hnames].
  apply orb_false_elim in Hfree. destruct Hfree as [Hhead Hfree].
  fold (replaced k r rows).
  destruct (has_id k x) eqn:E; cbn.
  - assert (Hnone : existsb (has_id k) rows = false).
    { apply existsb_false_iff. intros y Hy.
      destruct (has_id k y) eqn:Ey; [|reflexivity].
      exfalso. apply Hx. apply in_map_iff. exists y. split; [|exact Hy].
      unfold has_id in *. apply Z.eqb_eq in E, Ey. congruence. }
    rewrite (replaced_none _ Hnone). constructor; [|exact Hnames].
    intros C. apply in_map_iff in C. destruct C as (y & Hy & Hin).
    pose proof (proj1 (existsb_false_iff _ _) Hfree y Hin) as Fy.
    cbn in Fy. rewrite (proj1 (existsb_false_iff _ _) Hnone y Hin) in Fy.
    cbn in Fy. unfold has_username in Fy. rewrite Hy, String.eqb_refl in Fy.
    discriminate Fy.
  - constructor; [|now apply IH].
    try rewrite E in Hhead. cbn [negb andb] in Hhead.
    intros C. apply in_map_iff in C. destruct C as (y & Hy & Hin).
    destruct (In_replaced _ _ Hin) as [-> | [Hin' _]].
    + unfold has_username in Hhead. rewrite Hy, String.eqb_refl in Hhead.
      discriminate Hhead.
    + apply Hn. apply in_map_iff. now exists y.
Qed.
End Replaced.

Lemma filter_none {A} (p : A -> bool) (l : list A) :
  (forall y, In y l -> p y = false) -> filter p l = [].
Proof.
  induction l as [|x l IH]; cbn; [reflexivity|].
  intros H. rewrite (H x (or_introl eq_refl)). apply IH.
  intros y Hy. apply H. now right.
Qed.

Lemma filter_unique {A K} (key : A -> K) (test : K -> A -> bool)
    (l : list A) (k : K) (r : A) :
  (forall x, test k x = true <-> key x = k) ->
  NoDup (map key l) -> In r l -> key r = k -> filter (test k) l = [r].
Proof.
  intros Htest. induction l as [|x l IH]; cbn; [intros _ []|].
  intros Hnd Hin Hr. inversion_clear Hnd as [|? ? Hx Hl].
  destruct (test k x) eqn:E.
  - apply Htest in E.
    assert (Hnone : forall y, In y l -> test k y = false).
    { intros y Hy. destruct (test k y) eqn:Ey; [|reflexivity].
      apply Htest in Ey. exfalso. apply Hx. apply in_map_iff.
      exists y. split; [congruence | exact Hy]. }
    rewrite (filter_none _ _ Hnone). destruct Hin as [-> | Hin];
      [reflexivity|].
    assert (C : test k r = true) by now apply Htest.
    now rewrite (Hnone r Hin) in C.
  - destruct Hin as [-> | Hin]; [|now apply IH].
    assert (C : test k r = true) by now apply Htest.
    rewrite C in E. discriminate E.
Qed.

Lemma upsert_user_well_keyed (d : UpstreamUserData.t) (w : World) :
  well_keyed (users w) -> well_keyed (users (after (upsert_user d w))).
Proof.
  intros [Hids Hnames].
  destruct (value (upsert_user d w)) as [r|e] eqn:V.
  - destruct (upsert_user_ok_cases d w r V) as [-> Hcase].
    destruct Hcase as [(Hid & Hfree & ->) | (Hid & _ & Hfree & ->)];
      cbn [users set_users]; split.
    + rewrite replaced_ids; [exact Hids | apply row_of_has_id].
    + apply replaced_usernames; [exact Hids | exact Hnames | exact Hfree].
    + rewrite map_app. apply NoDup_snoc; [exact Hids|].
      now apply no_id_not_in.
    + rewrite map_app. apply NoDup_snoc; [exact Hnames|].
      now apply no_username_not_in.
  - rewrite (upsert_user_raise d w e V). now split.
Qed.

Lemma delete_well_keyed (k : Z) (rows : list User.t) :
  well_keyed rows ->
  well_keyed (filter (fun x => negb (has_id k x)) rows).
Proof. intros [H1 H2]. split; now apply filter_keeps_distinct. Qed.

Lemma fetch_then_upsert_users (w : World) :
  users (after (fetch_then_upsert w)) = users w
  \/ exists d w1,
       users w1 = users w
       /\ users (after (fetch_then_upsert w))
          = users (after (upsert_user d w1)).
Proof.
  unfold fetch_then_upsert, bind.
  pose proof (fetch_from_upstream_frame w) as (Husers & _).
  destruct (fetch_from_upstream w) as [[d|e] w1]; [|now left].
  right. exists d, w1. split; [exact Husers|].
  destruct (upsert_user d w1) as [[u|e] w2]; reflexivity.
Qed.

Section Invariant.
Variable P : list User.t -> Prop.
Hypothesis P_upsert :
  forall d w, P (users w) -> P (users (after (upsert_user d w))).
Hypothesis P_delete :
  forall k rows, P rows -> P (filter (fun x => negb (has_id k x)) rows).

Lemma fetch_then_upsert_keeps (w : World) :
  P (users w) -> P (users (after (fetch_then_upsert w))).
Proof.
  intros H. destruct (fetch_then_upsert_users w) as [-> | (d & w1 & E & ->)];
    [exact H|].
  apply P_upsert. now rewrite E.
Qed.

Lemma serve_keeps (c : Call) (w : World) :
  P (users w) -> P (users (serve c w)).
Proof.
  intros H. destruct c as [user_id b | user_id | d | d | user_id]; cbn [serve].
  - rewrite get_user_run. destruct (find _ _) as [u|];
      [destruct (_ || _)|]; try exact H; now apply fetch_then_upsert_keeps.
  - now apply fetch_then_upsert_keeps.
  - now apply P_upsert.
  - rewrite upsert_user_merge_run. now apply P_upsert.
  - rewrite delete_user_run. destruct (find _ _); [|exact H].
    now apply P_delete.
Qed.

Lemma reachable_keeps (w0 w : World) :
  P (users w0) -> reachable w0 w -> P (users w).
Proof.
  intros H0 R. induction R as [|w w' _ IH S]; [exact H0|].
  destruct S as [c w | w w' E]; [now apply serve_keeps | now rewrite E].
Qed.
End Invariant.

(** X9: the table never holds two rows of one id nor two rows of one
    username: if it starts that way (an empty table does), it stays that
    way through any history of [get_user], [refresh_user], [upsert_user],
    [upsert_user_merge] and [delete_user] calls, whatever they return or
    raise and however the clock and the upstream change in between. *)
Theorem reachable_well_keyed (w0 w : World) :
  well_keyed (users w0) -> reachable w0 w -> well_keyed (users w).
Proof.
  apply reachable_keeps.
  - intros d w1. apply upsert_user_well_keyed.
  - intros k rows. apply delete_well_keyed.
Qed.

Lemma reachable_well_keyed_witness :
  well_keyed
    (users (serve (CallRefreshUser 1) (serve (CallGetUser 2 false) empty_world))).
Proof.
  apply (reachable_well_keyed empty_world).
  - split; constructor.
  - eapply reachable_step; [eapply reachable_step; [apply reachable_start|]|];
      apply step_call.
Defined.

(** X10: after a successful upsert on a table with one row per id and per
    username, the row returned is the only row of the payload's id and the
    only row of the payload's username. *)
Theorem upsert_user_single_row (w : World) (d : UpstreamUserData.t)
    (r : User.t) :
  well_keyed (users w) ->
  value (upsert_user d w) = Ok r ->
  filter (has_id (UpstreamUserData.id d)) (users (after (upsert_user d w)))
  = [r]
  /\ filter (has_username (UpstreamUserData.username d))
       (users (after (upsert_user d w)))
     = [r].
Proof.
  intros Hkeys V.
  destruct (upsert_user_well_keyed d w Hkeys) as [Hids Hnames].
  destruct (upsert_user_ok d w r V) as [Hr Hfind].
  apply find_some in Hfind. destruct Hfind as [Hin _].
  split.
  - apply (filter_unique User.id has_id); [|exact Hids | exact Hin|].
    + intros x. apply Z.eqb_eq.
    + now rewrite Hr.
  - apply (filter_unique User.username has_username);
      [|exact Hnames | exact Hin|].
    + intros x. apply String.eqb_eq.
    + now rewrite Hr.
Qed.

Lemma upsert_user_single_row_witness :
  filter (has_id 1) (users (after (upsert_user leanne cached_world)))
  = [row_of leanne (clock cached_world)].
Proof.
  destruct (upsert_user_single_row cached_world leanne
              (row_of leanne (clock cached_world))) as [H _].
  - split; repeat constructor; intros [].
  - reflexivity.
  - exact H.
Defined.

Lemma normalize_website_normal (website : string) :
  normalize_website website = ""
  \/ has_scheme (normalize_website website) = true.
Proof.
  unfold normalize_website.
  destruct (String.eqb_spec website ""); [now left|].
  fold (has_scheme website). destruct (has_scheme website) eqn:E.
  - now right.
  - right. apply has_scheme_https.
Qed.

Lemma upsert_user_well_formed (d : UpstreamUserData.t) (w : World) :
  Forall well_formed_row (users w) ->
  Forall well_formed_row (users (after (upsert_user d w))).
Proof.
  intros H.
  destruct (value (upsert_user d w)) as [r|e] eqn:V.
  - destruct (upsert_user_ok_cases d w r V) as [-> Hcase].
    destruct Hcase as [(Hid & _ & ->) | (_ & Hrange & _ & ->)];
      cbn [users set_users].
    + apply existsb_exists in Hid. destruct Hid as (x & Hx & Hk).
      assert (Hrow : well_formed_row (row_of d (clock w))).
      { split; [|apply normalize_website_normal].
        cbn. unfold has_id in Hk. apply Z.eqb_eq in Hk. rewrite <- Hk.
        exact (proj1 (proj1 (Forall_forall _ _) H x Hx)). }
      apply Forall_forall. intros y Hy.
      destruct (In_replaced _ _ _ _ Hy) as [-> | [Hy' _]]; [exact Hrow|].
      exact (proj1 (Forall_forall _ _) H y Hy').
    + apply Forall_app. split; [exact H|]. constructor; [|constructor].
      split; [exact Hrange | apply normalize_website_normal].
  - now rewrite (upsert_user_raise d w e V).
Qed.

(** X11: every row the service has written has an id of the column's range
    and a website that is empty or starts with [http://] or [https://]: a
    table whose rows are so keeps rows that are so through any history of
    calls. *)
Theorem reachable_well_formed (w0 w : World) :
  Forall well_formed_row (users w0) ->
  reachable w0 w ->
  Forall well_formed_row (users w).
Proof.
  apply (reachable_keeps (Forall well_formed_row)).
  - intros d w1. apply upsert_user_well_formed.
  - intros k rows H. apply Forall_forall. intros y Hy.
    apply filter_In in Hy. exact (proj1 (Forall_forall _ _) H y (proj1 Hy)).
Qed.

Lemma reachable_well_formed_witness :
  Forall well_formed_row (users (serve (CallGetUser 2 false) empty_world)).
Proof.
  apply (reachable_well_formed empty_world).
  - constructor.
  - eapply reachable_step; [apply reachable_start | apply step_call].
Defined.

(** ** Reading after writing *)

Lemma fetch_then_upsert_payload (w : World) (d : UpstreamUserData.t) :
  exchange (upstream w (UPSTREAM_API_URL (config w))) = Payload d ->
  fetch_then_upsert w
  = (user <- upsert_user d ;; ret (response_of user))
      (after (fetch_from_upstream w)).
Proof.
  intros H. unfold fetch_then_upsert.
  assert (Hf : fetch_from_upstream w = (Ok d, after (fetch_from_upstream w)))
    by (unfold fetch_from_upstream; now rewrite H).
  exact (bind_ok _ _ _ _ _ Hf).
Qed.

Lemma fetch_then_upsert_ok (w : World) (d : UpstreamUserData.t)
    (resp : UserResponse.t) :
  exchange (upstream w (UPSTREAM_API_URL (config w))) = Payload d ->
  value (fetch_then_upsert w) = Ok resp ->
  resp = response_of (row_of d (clock (after (fetch_then_upsert w))))
  /\ find (has_id (UpstreamUserData.id d)) (users (after (fetch_then_upsert w)))
     = Some (row_of d (clock (after (fetch_then_upsert w)))).
Proof.
  intros Hd. rewrite (fetch_then_upsert_payload w d Hd).
  set (w1 := after (fetch_from_upstream w)). unfold bind, ret.
  pose proof (upsert_user_ok d w1) as Hok.
  pose proof (upsert_user_frame d w1) as (_ & Hclock & _).
  destruct (upsert_user d w1) as [[r|e] w2]; cbn in *; [|discriminate].
  intros [= <-]. destruct (Hok r eq_refl) as [-> Hfind].
  rewrite Hclock. now split.
Qed.

(** X12: what a successful [refresh_user] returned is what [get_user]
    without bypass returns for the payload's id afterwards, from the table
    and with no request to the upstream, as long as the table is the one the
    refresh left and no more than the cache duration has passed. *)
Theorem get_user_after_refresh (w w2 : World) (user_id : Z)
    (d : UpstreamUserData.t) (resp : UserResponse.t) :
  exchange (upstream w (UPSTREAM_API_URL (config w))) = Payload d ->
  value (refresh_user user_id w) = Ok resp ->
  users w2 = users (after (refresh_user user_id w)) ->
  clock w2 - clock (after (refresh_user user_id w)) <= cache_duration w2 ->
  get_user (UpstreamUserData.id d) false w2 = (Ok resp, w2).
Proof.
  unfold refresh_user. fold fetch_then_upsert.
  intros Hd V Hsame Hage.
  destruct (fetch_then_upsert_ok w d resp Hd V) as [-> Hfind].
  rewrite get_user_run, Hsame, Hfind. cbn [User.updated_at row_of].
  rewrite orb_false_r.
  replace (_ <? _) with false; [reflexivity|].
  symmetry. apply Z.ltb_ge. lia.
Qed.

Lemma get_user_after_refresh_witness :
  get_user 1 false (after (refresh_user 7 empty_world))
  = (Ok (response_of (row_of leanne 1000250000)),
     after (refresh_user 7 empty_world)).
Proof.
  apply (get_user_after_refresh empty_world
           (after (refresh_user 7 empty_world)) 7 leanne);
    [reflexivity | reflexivity | reflexivity | vm_compute; discriminate].
Defined.

Lemma has_id_by_ids (k : Z) (rows : list User.t) :
  existsb (has_id k) rows = existsb (fun i => i =? k) (map User.id rows).
Proof.
  induction rows as [|x rows IH]; cbn; [reflexivity|]. now rewrite IH.
Qed.

Lemma upsert_user_other_id (d : UpstreamUserData.t) (w : World) (k : Z) :
  UpstreamUserData.id d <> k ->
  find (has_id k) (users w) = None ->
  find (has_id k) (users (after (upsert_user d w))) = None.
Proof.
  intros Hne F.
  assert (E : existsb (has_id k) (users w) = false)
    by now rewrite find_existsb, F.
  assert (E' : existsb (has_id k) (users (after (upsert_user d w))) = false).
  { destruct (value (upsert_user d w)) as [r|e] eqn:V.
    - destruct (upsert_user_ok_cases d w r V) as [-> Hcase].
      destruct Hcase as [(_ & _ & ->) | (_ & _ & _ & ->)];
        cbn [users set_users].
      + rewrite has_id_by_ids, replaced_ids, <- has_id_by_ids;
          [exact E | apply row_of_has_id].
      + rewrite existsb_app, E. cbn. rewrite orb_false_r.
        now apply Z.eqb_neq.
    - now rewrite (upsert_user_raise d w e V). }
  rewrite find_existsb in E'. revert E'.
  destruct (find (has_id k) (users (after (upsert_user d w))));
    [discriminate | reflexivity].
Qed.

Lemma find_filter_none {A} (p q : A -> bool) (l : list A) :
  find p l = None -> find p (filter q l) = None.
Proof.
  induction l as [|x l IH]; cbn; [reflexivity|].
  destruct (p x) eqn:E; [discriminate|]. intros H.
  destruct (q x); cbn; [rewrite E|]; now apply IH.
Qed.

Lemma fetch_then_upsert_other_id (w : World) (k : Z) :
  ~ serves_id k w ->
  find (has_id k) (users w) = None ->
  find (has_id k) (users (after (fetch_then_upsert w))) = None.
Proof.
  intros Hquiet F.
  destruct (exchange (upstream w (UPSTREAM_API_URL (config w))))
    as [| | | |d] eqn:X.
  1-4: destruct (fetch_then_upsert_fails w) as [_ ->];
       [intros d'; rewrite X; discriminate | exact F].
  assert (Hne : UpstreamUserData.id d <> k).
  { intros Hk. apply Hquiet. now exists d. }
  rewrite (fetch_then_upsert_payload w d X). unfold bind, ret.
  pose proof (upsert_user_other_id d (after (fetch_from_upstream w)) k Hne)
    as Hkeep.
  destruct (upsert_user d (after (fetch_from_upstream w))) as [[r|e] w2];
    cbn in *; apply Hkeep;
    now rewrite (proj1 (fetch_from_upstream_frame w)).
Qed.

Lemma quiet_step_other_id (k : Z) (w w' : World) :
  quiet_step k w w' ->
  find (has_id k) (users w) = None ->
  find (has_id k) (users w') = None.
Proof.
  intros S F.
  destruct S as [user_id b w Hq | user_id w Hq | d w Hne | d w Hne
                 | user_id w | w w' E].
  - rewrite get_user_run.
    destruct (find (has_id user_id) (users w)) as [u|];
      [destruct (_ || _)|]; try exact F;
      now apply fetch_then_upsert_other_id.
  - now apply fetch_then_upsert_other_id.
  - now apply upsert_user_other_id.
  - rewrite upsert_user_merge_run. now apply upsert_user_other_id.
  - rewrite delete_user_run.
    destruct (find (has_id user_id) (users w)); [|exact F].
    cbn. now apply find_filter_none.
  - now rewrite E.
Qed.

(** X13: [get_user] stores the upstream's user under the upstream's own id.
    So when no row has id [k], it stays that way through any history in
    which nothing offers that id: [get_user] and [refresh_user] calls (for
    any id) while the upstream fails or answers with another id, upserts of
    other ids, deletes, and any change of clock, upstream and configuration
    in between.  At every point of such a history a [get_user] for [k] is a
    fetch-then-upsert cycle that requests the upstream: the id is never
    answered from the table. *)
Theorem get_user_other_id_never_cached (k : Z) (w0 w : World) :
  value (get_user_by_id k w0) = Ok None ->
  quiet_history k w0 w ->
  value (get_user_by_id k w) = Ok None
  /\ (forall bypass_cache,
        get_user k bypass_cache w = fetch_then_upsert w
        /\ http_log (after (get_user k bypass_cache w))
           = UPSTREAM_API_URL (config w) :: http_log w).
Proof.
  unfold get_user_by_id, query_first. cbn [value fst].
  intros [= F0] H.
  assert (F : find (has_id k) (users w) = None).
  { induction H as [|w w' _ IH S]; [exact F0|].
    exact (quiet_step_other_id k w w' S IH). }
  split; [now rewrite F|].
  intros b.
  assert (Hrun : get_user k b w = fetch_then_upsert w)
    by now rewrite get_user_run, F.
  split; [exact Hrun|]. rewrite Hrun. apply fetch_then_upsert_http_log.
Qed.

Lemma get_user_other_id_never_cached_witness :
  value (get_user_by_id 2
           (after (get_user 2 false (after (get_user 2 false empty_world)))))
  = Ok None.
Proof.
  destruct (get_user_other_id_never_cached 2 empty_world
              (after (get_user 2 false (after (get_user 2 false empty_world)))))
    as [H _].
  - reflexivity.
  - eapply quiet_then; [eapply quiet_then; [apply quiet_start|]|];
      apply quiet_get_user; intros (d & Hd & Hid); vm_compute in Hd;
      injection Hd as <-; discriminate Hid.
  - exact H.
Defined.

Lemma response_of_row_of (d : UpstreamUserData.t) (t : Z) :
  response_of (row_of d t) = view_of d.
Proof.
  unfold response_of, row_of, view_of, company_name_of, dict_get.
  cbn [User.name User.username User.email User.website User.company_name].
  f_equal.
  destruct (UpstreamUserData.company d) as [|kv rest]; [reflexivity|].
  cbn [dict_truthy].
  destruct (find _ (kv :: rest)) as [[key [name|]]|]; reflexivity.
Qed.

(** X14: a [refresh_user] that succeeds returns the payload's name,
    username and email as they are, its website normalized, and as company
    name the string under ["name"] in the company object: the empty string
    when that member is missing, is null, or the object is empty.  The id
    asked for and the table play no part. *)
Theorem refresh_user_view (w : World) (user_id : Z) (d : UpstreamUserData.t)
    (resp : UserResponse.t) :
  exchange (upstream w (UPSTREAM_API_URL (config w))) = Payload d ->
  value (refresh_user user_id w) = Ok resp ->
  resp = view_of d.
Proof.
  unfold refresh_user. fold fetch_then_upsert. intros Hd V.
  destruct (fetch_then_upsert_ok w d resp Hd V) as [-> _].
  apply response_of_row_of.
Qed.

Lemma refresh_user_view_witness :
  response_of (row_of leanne 1000250000) = view_of leanne.
Proof.
  apply (refresh_user_view empty_world 1 leanne); reflexivity.
Defined.

(** ** The endpoints *)

Lemma api_get_user_run (bypass_cache : bool) (w : World) :
  App.get_user bypass_cache w =
  match get_user 1 bypass_cache w with
  | (Ok resp, w') => (App.Return resp, w')
  | (Raise e, w') =>
      (App.Raised
         (App.HTTPException 500 (App.InternalServerError (App.Exception e))),
       w')
  end.
Proof.
  unfold App.get_user, App.try_except, App.call.
  now destruct (get_user 1 bypass_cache w) as [[resp|e] w'].
Qed.

(** X15: [GET /api/users/1] asks the service for user 1 whatever the flag.
    When the row of id 1 is usable it replies with its view, sends nothing
    to the upstream and changes nothing.  When it is not and the fetch
    fails, the reply is the [HTTPException] of status 500 that wraps the
    service's exception, and the table is as it was.  No exception of the
    service leaves the endpoint unwrapped. *)
Theorem api_get_user_outcome (w : World) (bypass_cache : bool) :
  (forall u,
     value (get_user_by_id 1 w) = Ok (Some u) ->
     served_from_store 1 bypass_cache w ->
     App.get_user bypass_cache w = (App.Return (response_of u), w))
  /\ (~ served_from_store 1 bypass_cache w ->
      fetch_fails w ->
      exists e,
        fst (App.get_user bypass_cache w)
        = App.Raised
            (App.HTTPException 500
               (App.InternalServerError (App.Exception e)))
        /\ users (snd (App.get_user bypass_cache w)) = users w)
  /\ (forall e, fst (App.get_user bypass_cache w) <> App.Raised (App.Exception e)).
Proof.
  rewrite api_get_user_run. split; [|split].
  - unfold get_user_by_id, query_first. cbn [value fst].
    intros u [= F] Hhit. apply served_from_store_dec in Hhit.
    rewrite F in Hhit. now rewrite get_user_run, F, Hhit.
  - intros Hmiss Hfail. rewrite (get_user_miss _ _ _ Hmiss).
    destruct (fetch_then_upsert_fails w Hfail) as [[e He] Hsame].
    exists e. destruct (fetch_then_upsert w) as [[resp|e'] w'];
      cbn in *; [discriminate He|].
    injection He as ->. now split.
  - intros e. now destruct (get_user 1 bypass_cache w) as [[resp|e'] w'].
Qed.

Lemma api_get_user_outcome_witness :
  App.get_user false cached_world
  = (App.Return (response_of (row_of leanne (clock empty_world))),
     cached_world).
Proof.
  destruct (api_get_user_outcome cached_world false) as (H & _).
  apply H; [reflexivity|].
  exists (row_of leanne (clock empty_world)). repeat split.
Defined.

(** X16: the handlers behind [/api/users/{user_id}].  [delete_user], for
    every id, raises the 404 [HTTPException] exactly when no row has the id
    and then changes nothing; with a row it replies with the id and leaves
    no row of it.  [get_user_by_id] serves every id but 1 (a GET for
    [/api/users/1] is routed to [get_user]): it raises 404 exactly when no
    row has the id, replies with the row's view otherwise, stale or not,
    changes nothing, and raises 404 after a DELETE of that id.  The 404
    raised inside the [try] is passed on, not turned into a 500, and
    neither handler sends a request to the upstream. *)
Theorem api_lookup_and_delete (w : World) (user_id : Z) :
  (value (get_user_by_id user_id w) = Ok None ->
   App.delete_user user_id w
   = (App.Raised (App.HTTPException 404 App.UserNotFound), w))
  /\ (forall u,
        value (get_user_by_id user_id w) = Ok (Some u) ->
        fst (App.delete_user user_id w) = App.Return user_id
        /\ value (get_user_by_id user_id (snd (App.delete_user user_id w)))
           = Ok None)
  /\ http_log (snd (App.delete_user user_id w)) = http_log w
  /\ (user_id <> 1 ->
      (value (get_user_by_id user_id w) = Ok None ->
       App.get_user_by_id user_id w
       = (App.Raised (App.HTTPException 404 App.UserNotFound), w))
      /\ (forall u,
            value (get_user_by_id user_id w) = Ok (Some u) ->
            App.get_user_by_id user_id w = (App.Return (response_of u), w))
      /\ fst (App.get_user_by_id user_id (snd (App.delete_user user_id w)))
         = App.Raised (App.HTTPException 404 App.UserNotFound)).
Proof.
  unfold App.get_user_by_id, App.delete_user, App.try_except, App.bind,
    App.call.
  rewrite delete_user_run.
  unfold get_user_by_id, query_first. cbn [value fst].
  destruct (find (has_id user_id) (users w)) as [u|] eqn:F.
  - split; [discriminate|]. split; [|split; [reflexivity|]].
    + intros u' [= <-]. cbn. now rewrite find_filtered_out.
    + intros _. split; [discriminate|]. split.
      * now intros u' [= <-].
      * cbn. now rewrite find_filtered_out.
  - split; [reflexivity|]. split; [intros u [=]|]. split; [reflexivity|].
    intros _. split; [reflexivity|]. split; [intros u [=]|].
    cbn. now rewrite F.
Qed.

Lemma api_lookup_and_delete_witness :
  App.get_user_by_id 2 cached_world
  = (App.Raised (App.HTTPException 404 App.UserNotFound), cached_world)
  /\ fst (App.delete_user 1 cached_world) = App.Return 1.
Proof.
  destruct (api_lookup_and_delete cached_world 2) as (_ & _ & _ & H2).
  destruct H2 as (H2 & _); [discriminate|].
  destruct (api_lookup_and_delete cached_world 1) as (_ & H1 & _).
  destruct (H1 (row_of leanne (clock empty_world)) eq_refl) as (H1' & _).
  split; [apply H2; reflexivity | exact H1'].
Defined.

(** ** Migrations at start-up *)


(** X17: [run_migrations] runs the migration at most five times and stops
    at the first run that completes: it then returns [True], having slept
    two seconds after each failed run.  When all five runs fail it raises
    the exception of the fifth, after five runs and four sleeps.  It never
    returns [False]. *)
Theorem run_migrations_outcome (subprocess_run : nat -> App.Run) :
  (forall n,
     (n < 5)%nat ->
     (forall m, (m < n)%nat -> subprocess_run m <> App.Completed) ->
     subprocess_run n = App.Completed ->
     App.run_migrations subprocess_run
     = (App.Returned true,
        {| App.runs := S n; App.slept := 2 * Z.of_nat n |}))
  /\ ((forall m, (m < 5)%nat -> subprocess_run m <> App.Completed) ->
      App.run_migrations subprocess_run
      = (App.Reraised (subprocess_run 4%nat),
         {| App.runs := 5; App.slept := 8 |}))
  /\ (forall log, App.run_migrations subprocess_run <> (App.Returned false, log)).
Proof.
  unfold App.run_migrations. cbn [seq App.max_retries].
  split; [|split].
  - intros n Hn Hfail Hdone.
    destruct n as [|[|[|[|[|n]]]]]; [| | | | |lia]; cbn [App.attempts].
    + now rewrite Hdone.
    + failed_run subprocess_run Hfail 0%nat; cbn; now rewrite Hdone.
    + failed_run subprocess_run Hfail 0%nat; (failed_run subprocess_run Hfail 1%nat); cbn;
        now rewrite Hdone.
    + failed_run subprocess_run Hfail 0%nat; (failed_run subprocess_run Hfail 1%nat);
        (failed_run subprocess_run Hfail 2%nat); cbn; now rewrite Hdone.
    + failed_run subprocess_run Hfail 0%nat; (failed_run subprocess_run Hfail 1%nat);
        (failed_run subprocess_run Hfail 2%nat); (failed_run subprocess_run Hfail 3%nat); cbn;
        now rewrite Hdone.
  - intros Hfail. cbn [App.attempts].
    failed_run subprocess_run Hfail 0%nat; (failed_run subprocess_run Hfail 1%nat);
      (failed_run subprocess_run Hfail 2%nat); (failed_run subprocess_run Hfail 3%nat); cbn;
      (failed_run subprocess_run Hfail 4%nat); reflexivity.
  - intros log. cbn [App.attempts].
    destruct (subprocess_run 0%nat); cbn; try discriminate;
      destruct (subprocess_run 1%nat); cbn; try discriminate;
      destruct (subprocess_run 2%nat); cbn; try discriminate;
      destruct (subprocess_run 3%nat); cbn; try discriminate;
      destruct (subprocess_run 4%nat); cbn; discriminate.
Qed.

Lemma run_migrations_outcome_witness :
  App.run_migrations up_at_third
  = (App.Returned true, {| App.runs := 3; App.slept := 4 |}).
Proof.
  destruct (run_migrations_outcome up_at_third) as (H & _).
  apply (H 2%nat); [lia | | reflexivity].
  intros [|[|m]] Hm; [discriminate | discriminate | lia].
Defined.
